(** * my-first-site: the Notion project proxy and the projects slider

    A shallow embedding of
      - [src/app/api/notion/projects/route.ts]   (the [GET] and [POST] handlers)
      - [src/components/projects-slider.tsx]     (the [ProjectsSlider] component)
    and the properties the specification states about them.

    JavaScript values are modelled at their declared TypeScript types: a
    [string | null] is an [option string], an array is a [list], an object
    with declared fields is a [Record].  On a value of its declared type the
    optional chaining [a?.b] of the route is plain field access, except for
    [Category.select], which is declared nullable and stays an [option]. *)

From Stdlib Require Import String DecimalString Bool Arith ZArith Lia List.
From Stdlib Require Import PrimFloat Permutation.
Import ListNotations.
Open Scope string_scope.
Open Scope list_scope.

(** ** JavaScript truthiness of the values used as conditions *)

Module JS.

(** [ToBoolean] on a string: only the empty string is falsy. *)
Definition truthy (s : string) : bool := negb (s =? "").

(** [ToBoolean] on [string | null | undefined]. *)
Definition truthy_opt (o : option string) : bool :=
  match o with
  | Some s => truthy s
  | None => false
  end.

(** [a || undefined] on [string | null]: the string when truthy. *)
Definition or_undefined (o : option string) : option string :=
  match o with
  | Some s => if truthy s then Some s else None
  | None => None
  end.

(** [Array.prototype.join] with a separator. *)
Definition join (sep : string) (l : list string) : string := String.concat sep l.

(** A [string | undefined] inside a template literal. *)
Definition interpolate (o : option string) : string :=
  match o with
  | Some s => s
  | None => "undefined"
  end.

(** A number inside a template literal (the numbers here are integers). *)
Definition show_number (n : Z) : string := NilZero.string_of_int (Z.to_int n).

End JS.

(** ** The wire format: the Notion interfaces of both source files *)

Module Notion.

(** [NotionFile.file] *)
Record FileRef := { url : string; expiry_time : string }.

(** [interface NotionFile]; the literal field [type: "file"] carries no data. *)
Record NotionFile := { file_name : string; file : FileRef }.

(** [NotionRichText.text] *)
Record TextBody := { content : string; text_link : option string }.

(** [interface NotionRichText] *)
Record NotionRichText := { text : TextBody; plain_text : string }.

(** [interface NotionSelect] *)
Record NotionSelect := { select_id : string; name : string; color : string }.

(** [NotionPage.properties]: each field is the payload of the property of
    that name ([Cover.files], [Link.url], [Skills.rich_text],
    [Category.select], [Name.title]). *)
Record Properties := {
  Cover : list NotionFile;
  Link : option string;
  Skills : list NotionRichText;
  Category : option NotionSelect;
  Name : list NotionRichText
}.

(** [interface NotionPage] of the route; the component reads the same
    records and ignores [archived]. *)
Record NotionPage := {
  id : string;
  archived : bool;
  properties : Properties
}.

End Notion.

(** ** [Map<string, V>]: a map that iterates in insertion order *)

Module OrderedMap.

Section WithValue.
Variable V : Type.

(** Entries in insertion order, one per key. *)
Definition t := list (string * V).

Definition empty : t := [].

(** [Map.prototype.has] *)
Fixpoint has (k : string) (m : t) : bool :=
  match m with
  | [] => false
  | (k', _) :: m' => if k' =? k then true else has k m'
  end.

(** [Map.prototype.get]; [None] is [undefined]. *)
Fixpoint get (k : string) (m : t) : option V :=
  match m with
  | [] => None
  | (k', v) :: m' => if k' =? k then Some v else get k m'
  end.

(** [Map.prototype.set]: an existing key keeps its position, a new key
    goes last. *)
Fixpoint set (k : string) (v : V) (m : t) : t :=
  match m with
  | [] => [(k, v)]
  | (k', v') :: m' => if k' =? k then (k', v) :: m' else (k', v') :: set k v m'
  end.

(** [Map.prototype.entries] followed by [Array.from]. *)
Definition entries (m : t) : list (string * V) := m.

Definition keys (m : t) : list string := map fst m.

End WithValue.

Arguments empty {V}.
Arguments has {V} k m.
Arguments get {V} k m.
Arguments set {V} k v m.
Arguments entries {V} m.
Arguments keys {V} m.

(** [m.get(k)?.push(x)]: the array stored under [k] is extended in place;
    nothing happens when [k] is absent. *)
Fixpoint push_at {A : Type} (k : string) (x : A) (m : t (list A)) : t (list A) :=
  match m with
  | [] => []
  | (k', xs) :: m' => if k' =? k then (k', xs ++ [x]) :: m' else (k', xs) :: push_at k x m'
  end.

End OrderedMap.

(** ** The component's data: [Project] and [ProjectCategory] *)

Module Slider.

Import Notion.

(** [interface Project]; [link?: string] is absent as [None]. *)
Record Project := {
  project_id : string;
  image : string;
  link : option string;
  skills : string;
  category : string
}.

(** [interface ProjectCategory] *)
Record ProjectCategory := {
  category_name : string;
  projects : list Project
}.

(** The guard of [transformNotionData]:
    [!Cover.files.length || !Category.select || !Skills.rich_text.length]
    is what makes the callback return early. *)
Definition missing_required (page : NotionPage) : bool :=
  (List.length (Cover (properties page)) =? 0)%nat
  || (match Category (properties page) with None => true | Some _ => false end)
  || (List.length (Skills (properties page)) =? 0)%nat.

(** The [Project] literal built for one page; [None] when the callback
    returns before building it. *)
Definition project_of (page : NotionPage) : option Project :=
  if missing_required page then None
  else
    match Cover (properties page), Category (properties page) with
    | f :: _, Some sel =>
        Some {| project_id := id page;
                image := url (file f);
                link := JS.or_undefined (Link (properties page));
                skills := JS.join ", " (map plain_text (Skills (properties page)));
                category := name sel |}
    | _, _ => None
    end.

(** One iteration of [results.forEach]. *)
Definition visit (projectMap : OrderedMap.t (list Project)) (page : NotionPage)
  : OrderedMap.t (list Project) :=
  match project_of page with
  | None => projectMap
  | Some project =>
      let categoryName := category project in
      let projectMap' :=
        if OrderedMap.has categoryName projectMap then projectMap
        else OrderedMap.set categoryName [] projectMap in
      OrderedMap.push_at categoryName project projectMap'
  end.

Definition transformNotionData (results : list NotionPage) : list ProjectCategory :=
  let projectMap := fold_left visit results OrderedMap.empty in
  map (fun '(name, projects) => {| category_name := name; projects := projects |})
      (OrderedMap.entries projectMap).

End Slider.

(** ** The route handlers: [src/app/api/notion/projects/route.ts] *)

Module Route.

Import Notion.

(** *** What the handlers read and write *)

(** [process.env]: a variable that is not set is [None]. *)
Record Env := {
  NOTION_TOKEN : option string;
  NOTION_DATABASE_ID : option string
}.

(** [interface NotionSort] *)
Inductive Direction := ascending | descending.
Record NotionSort := { property : string; direction : Direction }.

(** [Record<string, unknown>]: the own keys with their values serialised. *)
Definition Filters := list (string * string).

(** [interface PostRequestBody] *)
Record PostRequestBody := {
  filters : option Filters;
  sorts : option (list NotionSort)
}.

(** The incoming [Request] of [POST]: what [request.json()] resolves to,
    taken at the type it is cast to ([as PostRequestBody]: [filters] an
    object or missing, [sorts] an array or missing), or [None] when it
    rejects (a body of length zero, or one that is not JSON).  JSON of
    another shape, such as [null] or [null] for one of the two fields, is not
    a [PostRequestBody] and has no counterpart here. *)
Record Request := { request_json : option PostRequestBody }.

(** [requestBody] of [POST], the object that is stringified. *)
Record QueryBody := {
  filter : option Filters;
  query_sorts : option (list NotionSort)
}.

(** The arguments of the outbound [fetch]. *)
Record UpstreamRequest := {
  fetch_url : string;
  fetch_method : string;
  fetch_headers : list (string * string);
  fetch_body : option QueryBody;
  revalidate : Z
}.

(** [NotionDatabaseResponse] as it arrives: the declared shape has a
    [results] array, and the handler of [GET] checks for it. *)
Inductive Data :=
| NoResultList                          (* [results] missing or not an array *)
| ResultList (results : list NotionPage).

(** The upstream [Response]: [json] is [None] when [response.json()] rejects. *)
Record UpstreamResponse := {
  upstream_status : Z;
  upstream_text : string;
  upstream_json : option Data
}.

(** [response.ok]: the status is in the range 200-299. *)
Definition ok (r : UpstreamResponse) : bool :=
  ((200 <=? upstream_status r) && (upstream_status r <=? 299))%Z.

(** What the outbound [fetch] does: it rejects, or resolves to a response. *)
Inductive Upstream :=
| FetchRejects
| Responds (r : UpstreamResponse).

(** Values that are thrown and caught. *)
Inductive Exception :=
| NetworkError      (* [fetch] rejected *)
| SyntaxError       (* a body that is not JSON *)
| TypeError         (* a property or method of [undefined]; a body on a null-body status *)
| RangeError.       (* a response status outside 200-599 *)

(** One [console.error] call: the label and the second argument. *)
Inductive Logged :=
| LogText (s : string)
| LogException (e : Exception)
| LogUndefined.
Record LogEntry := { label : string; detail : Logged }.

(** The JSON body of the handler's response: [results], [total] and
    [error] are present or absent by the object literal that was passed. *)
Record Envelope := {
  success : bool;
  results : option (list NotionPage);
  total : option nat;
  error : option string
}.

(** The response object that [NextResponse.json(body, { status })] builds
    when it builds one; the status defaults to 200. *)
Record HttpResponse := { status : Z; body : Envelope }.

Definition json_ok (b : Envelope) : HttpResponse := {| status := 200; body := b |}.
Definition json_status (b : Envelope) (st : Z) : HttpResponse := {| status := st; body := b |}.

(** [{ success: false, error }] *)
Definition failure (msg : string) : Envelope :=
  {| success := false; results := None; total := None; error := Some msg |}.

(** [{ success: true, results, total: results.length }] *)
Definition succeeded (rs : list NotionPage) : Envelope :=
  {| success := true; results := Some rs; total := Some (List.length rs); error := None |}.

(** *** Effects: outbound calls, the console, and exceptions *)

Record World := {
  upstream_calls : list UpstreamRequest;
  console : list LogEntry
}.

Definition quiet : World := {| upstream_calls := []; console := [] |}.

Inductive Result (A : Type) :=
| Value (a : A)
| Thrown (e : Exception).
Arguments Value {A} a.
Arguments Thrown {A} e.

Definition M (A : Type) := World -> Result A * World.

Definition ret {A} (a : A) : M A := fun w => (Value a, w).
Definition throw {A} (e : Exception) : M A := fun w => (Thrown e, w).
Definition bind {A B} (m : M A) (k : A -> M B) : M B :=
  fun w => match m w with
           | (Value a, w') => k a w'
           | (Thrown e, w') => (Thrown e, w')
           end.
(** [try { body } catch (error) { handler }] *)
Definition try_catch {A} (body : M A) (handler : Exception -> M A) : M A :=
  fun w => match body w with
           | (Value a, w') => (Value a, w')
           | (Thrown e, w') => handler e w'
           end.

Notation "x <- m ;; k" := (bind m (fun x => k))
  (at level 61, m at next level, right associativity).
Notation "m ;;; k" := (bind m (fun _ => k))
  (at level 61, right associativity).

(** [console.error(label, detail)] *)
Definition console_error (l : string) (d : Logged) : M unit :=
  fun w => (Value tt, {| upstream_calls := upstream_calls w;
                         console := console w ++ [{| label := l; detail := d |}] |}).

(** [await fetch(url, init)]: the call is made, and then it rejects or
    resolves as the upstream decides. *)
Definition fetch (req : UpstreamRequest) (up : Upstream) : M UpstreamResponse :=
  fun w =>
    let w' := {| upstream_calls := upstream_calls w ++ [req]; console := console w |} in
    match up with
    | FetchRejects => (Thrown NetworkError, w')
    | Responds r => (Value r, w')
    end.

(** [await response.json()] *)
Definition response_json (r : UpstreamResponse) : M Data :=
  match upstream_json r with
  | Some d => ret d
  | None => throw SyntaxError
  end.

(** [await response.text()] *)
Definition response_text (r : UpstreamResponse) : M string := ret (upstream_text r).

(** [await request.json()] *)
Definition read_json (request : Request) : M PostRequestBody :=
  match request_json request with
  | Some b => ret b
  | None => throw SyntaxError
  end.

(** The statuses of a response that cannot have a body. *)
Definition null_body_status (st : Z) : bool :=
  ((st =? 101) || (st =? 103) || (st =? 204) || (st =? 205) || (st =? 304))%Z.

(** [NextResponse.json(body, { status })].  The response is made by
    [Response.json], which throws a [RangeError] when the status is outside
    200-599 and a [TypeError] when it is a null-body status, the JSON body
    never being null. *)
Definition NextResponse_json (b : Envelope) (st : Z) : M HttpResponse :=
  if negb ((200 <=? st) && (st <=? 599))%Z then throw RangeError
  else if null_body_status st then throw TypeError
  else ret (json_status b st).

(** The statuses [NextResponse.json] accepts, and what it throws for the
    others. *)
Definition accepts_status (st : Z) : bool :=
  ((200 <=? st) && (st <=? 599))%Z && negb (null_body_status st).

Definition refusal (st : Z) : Exception :=
  if negb ((200 <=? st) && (st <=? 599))%Z then RangeError else TypeError.

(** *** The handlers *)

Definition default_database_id : string := "26a7cb44e75d8045a568f9f8741bec2d".

(** [process.env.NOTION_DATABASE_ID || '26a7...'] *)
Definition databaseId (env : Env) : string :=
  match JS.or_undefined (NOTION_DATABASE_ID env) with
  | Some d => d
  | None => default_database_id
  end.

Definition query_url (env : Env) : string :=
  String.append "https://api.notion.com/v1/databases/"
                (String.append (databaseId env) "/query").

Definition query_headers (env : Env) : list (string * string) :=
  [ ("Authorization", String.append "Bearer " (JS.interpolate (NOTION_TOKEN env)));
    ("Content-Type", "application/json");
    ("Notion-Version", "2022-06-28") ].

(** The callback of [data.results.filter]:
    [!page.archived && Cover.files.length > 0 && Category.select?.name
     && Skills.rich_text.length > 0], taken as a condition. *)
Definition keep (page : NotionPage) : bool :=
  negb (archived page)
  && (0 <? List.length (Cover (properties page)))%nat
  && JS.truthy_opt (option_map name (Category (properties page)))
  && (0 <? List.length (Skills (properties page)))%nat.

Definition token_missing : string := "Notion API 토큰이 설정되지 않았습니다".
Definition upstream_failed (st : Z) : string :=
  String.append "Notion API 호출 실패: " (JS.show_number st).
Definition bad_format : string := "올바르지 않은 Notion 응답 형식입니다".
Definition server_error : string := "서버 오류가 발생했습니다".

(** The [catch] block shared by both handlers. *)
Definition on_error (e : Exception) : M HttpResponse :=
  console_error "Notion 프로젝트 데이터 로드 실패:" (LogException e) ;;;
  NextResponse_json (failure server_error) 500.

(** [export async function GET()] *)
Definition GET (env : Env) (up : Upstream) : M HttpResponse :=
  try_catch
    (if negb (JS.truthy_opt (NOTION_TOKEN env)) then
       NextResponse_json (failure token_missing) 500
     else
       response <- fetch {| fetch_url := query_url env;
                            fetch_method := "POST";
                            fetch_headers := query_headers env;
                            fetch_body := None;
                            revalidate := 300 |} up ;;
       if negb (ok response) then
         errorData <- response_text response ;;
         console_error "Notion API 오류:" (LogText errorData) ;;;
         NextResponse_json (failure (upstream_failed (upstream_status response)))
                           (upstream_status response)
       else
         data <- response_json response ;;
         match data with
         | NoResultList => NextResponse_json (failure bad_format) 500
         | ResultList rs =>
             let filteredResults := List.filter keep rs in
             NextResponse_json (succeeded filteredResults) 200
         end)
    on_error.

(** [export async function POST(request: Request)] *)
Definition POST (request : Request) (env : Env) (up : Upstream) : M HttpResponse :=
  try_catch
    (body <- read_json request ;;
     let filters := match filters body with Some f => f | None => [] end in
     let sorts := match sorts body with Some s => s | None => [] end in
     if negb (JS.truthy_opt (NOTION_TOKEN env)) then
       NextResponse_json (failure token_missing) 500
     else
       let requestBody :=
         {| filter := if (0 <? List.length filters)%nat then Some filters else None;
            query_sorts := if (0 <? List.length sorts)%nat then Some sorts else None |} in
       response <- fetch {| fetch_url := query_url env;
                            fetch_method := "POST";
                            fetch_headers := query_headers env;
                            fetch_body := Some requestBody;
                            revalidate := 300 |} up ;;
       if negb (ok response) then
         errorData <- response_text response ;;
         console_error "Notion API 오류:" (LogText errorData) ;;;
         NextResponse_json (failure (upstream_failed (upstream_status response)))
                           (upstream_status response)
       else
         data <- response_json response ;;
         match data with
         | NoResultList => throw TypeError      (* [data.results.filter] *)
         | ResultList rs =>
             let filteredResults := List.filter keep rs in
             NextResponse_json (succeeded filteredResults) 200
         end)
    on_error.

(** Running a handler from a world with nothing called and nothing logged. *)
Definition run {A} (m : M A) : Result A * World := m quiet.

End Route.

(** ** The component: [src/components/projects-slider.tsx] *)

Module Component.

Import Notion Slider.

(** *** State hooks *)

(** The [useState] cells that the fetch, the cards and the overlay use. *)
Record State := {
  categories : list ProjectCategory;
  loading : bool;
  selectedImage : option string
}.

(** The initial values passed to [useState]: [[]], [false] and [null]. *)
Definition initial : State :=
  {| categories := []; loading := false; selectedImage := None |}.

Definition setCategories (v : list ProjectCategory) (s : State) : State :=
  {| categories := v; loading := loading s; selectedImage := selectedImage s |}.
Definition setLoading (v : bool) (s : State) : State :=
  {| categories := categories s; loading := v; selectedImage := selectedImage s |}.
Definition setSelectedImage (v : option string) (s : State) : State :=
  {| categories := categories s; loading := loading s; selectedImage := v |}.

(** *** [loadProjectsFromNotion] *)

(** The page as a whole: the component's state, the console, the requests
    issued so far and the number of them that have not settled. *)
Record Page := {
  state : State;
  console : list Route.LogEntry;
  requests : list string;
  outstanding : nat
}.

Definition mount : Page :=
  {| state := initial; console := []; requests := []; outstanding := 0 |}.

Definition with_state (f : State -> State) (p : Page) : Page :=
  {| state := f (state p); console := console p;
     requests := requests p; outstanding := outstanding p |}.

Definition console_error (l : string) (d : Route.Logged) (p : Page) : Page :=
  {| state := state p;
     console := console p ++ [{| Route.label := l; Route.detail := d |}];
     requests := requests p; outstanding := outstanding p |}.

(** What [await fetch(...)] followed by [await response.json()] gives:
    [fetch] rejects, or it resolves and the body is JSON ([Some]) or not. *)
Inductive Fetched :=
| Rejects
| Resolves (json : option Route.Envelope).

(** What the browser receives when the route answered with [r]. *)
Definition served (r : Route.HttpResponse) : Fetched := Resolves (Some (Route.body r)).

(** Up to the first [await]: [setLoading(true)] and the call of [fetch]. *)
Definition load_begin (p : Page) : Page :=
  let p := with_state (setLoading true) p in
  {| state := state p; console := console p;
     requests := requests p ++ ["/api/notion/projects"];
     outstanding := S (outstanding p) |}.

(** The [catch] block. *)
Definition load_catch (e : Route.Exception) (p : Page) : Page :=
  console_error "Notion API 호출 실패:" (Route.LogException e) p.

(** From the first [await] to the end of the [finally] block. *)
Definition load_settle (r : Fetched) (p : Page) : Page :=
  let p :=
    match r with
    | Rejects => load_catch Route.NetworkError p
    | Resolves None => load_catch Route.SyntaxError p
    | Resolves (Some data) =>
        if Route.success data then
          match Route.results data with
          | Some results =>
              let transformedCategories := transformNotionData results in
              with_state (setCategories transformedCategories) p
          | None => load_catch Route.TypeError p      (* [undefined.forEach] *)
          end
        else
          console_error "Notion 데이터 로드 실패:"
            (match Route.error data with
             | Some msg => Route.LogText msg
             | None => Route.LogUndefined
             end) p
    end in
  let p := with_state (setLoading false) p in
  {| state := state p; console := console p;
     requests := requests p; outstanding := pred (outstanding p) |}.

(** One whole call with nothing in between. *)
Definition loadProjectsFromNotion (r : Fetched) (p : Page) : Page :=
  load_settle r (load_begin p).

(** A fetch that did not deliver results: a network error, a body that is
    not JSON, or an envelope whose [success] is not true. *)
Definition failed (r : Fetched) : bool :=
  match r with
  | Rejects => true
  | Resolves None => true
  | Resolves (Some data) => negb (Route.success data)
  end.

(** *** What is rendered *)

(** [project.link ? <a href=...> : <div onClick=...>] *)
Inductive Wrapper :=
| Anchor (href : string)
| Div.

Definition wrapper (p : Project) : Wrapper :=
  match link p with
  | Some l => if JS.truthy l then Anchor l else Div
  | None => Div
  end.

(** The three conditional parts of the returned JSX. *)
Record Screen := {
  spinner : bool;                           (* [loading && ...] *)
  empty_message : bool;                     (* [!loading && categories.length === 0 ? ...] *)
  strips : option (list ProjectCategory);   (* [... : categories.map(...)] *)
  overlay : option string                   (* [selectedImage && ...] *)
}.

Definition render (s : State) : Screen :=
  let empty := negb (loading s) && (List.length (categories s) =? 0)%nat in
  {| spinner := loading s;
     empty_message := empty;
     strips := if empty then None else Some (categories s);
     overlay := JS.or_undefined (selectedImage s) |}.

(** *** Events *)

(** The elements a click can land on.  A click on the picture or the text
    of a card is a click on the card's wrapper. *)
Inductive Node :=
| Card (i j : nat)       (* card [j] of strip [i] *)
| Backdrop               (* the dimmed full-screen [div] *)
| ModalContainer         (* the [div] inside it *)
| CloseButton            (* the button inside the container *)
| ModalImage.            (* the picture inside the container *)

Definition card_at (s : State) (i j : nat) : option Project :=
  match nth_error (categories s) i with
  | Some c => nth_error (projects c) j
  | None => None
  end.

Definition mounted (s : State) (n : Node) : bool :=
  match n with
  | Card i j => match card_at s i j with Some _ => true | None => false end
  | _ => JS.truthy_opt (selectedImage s)
  end.

(** The target and its ancestors, innermost first. *)
Definition path (n : Node) : list Node :=
  match n with
  | Card i j => [Card i j]
  | Backdrop => [Backdrop]
  | ModalContainer => [ModalContainer; Backdrop]
  | CloseButton => [CloseButton; ModalContainer; Backdrop]
  | ModalImage => [ModalImage; ModalContainer; Backdrop]
  end.

(** An [onClick] handler: the state update it makes and whether it calls
    [e.stopPropagation()]. *)
Record Handler := { update : State -> State; stops : bool }.

Definition onClick (rendered : State) (n : Node) : option Handler :=
  match n with
  | Card i j =>
      match card_at rendered i j with
      | Some p =>
          match wrapper p with
          | Div => Some {| update := setSelectedImage (Some (image p)); stops := false |}
          | Anchor _ => None
          end
      | None => None
      end
  | Backdrop => Some {| update := setSelectedImage None; stops := false |}
  | ModalContainer => Some {| update := fun s => s; stops := true |}
  | CloseButton => Some {| update := setSelectedImage None; stops := false |}
  | ModalImage => None
  end.

(** The click bubbles outwards until a handler stops it. *)
Fixpoint propagate (rendered : State) (nodes : list Node) (s : State) : State :=
  match nodes with
  | [] => s
  | n :: outer =>
      match onClick rendered n with
      | Some h => if stops h then update h s else propagate rendered outer (update h s)
      | None => propagate rendered outer s
      end
  end.

Definition click (n : Node) (s : State) : State :=
  if mounted s n then propagate s (path n) s else s.

(** The default action of a click: a card that is an anchor opens its
    [href] (in a new browsing context). *)
Definition navigates (n : Node) (s : State) : option string :=
  match n with
  | Card i j =>
      match card_at s i j with
      | Some p => match wrapper p with Anchor h => Some h | Div => None end
      | None => None
      end
  | _ => None
  end.

(** [handleEsc], the [keydown] listener on [window]. *)
Definition handleEsc (key : string) (s : State) : State :=
  if (key =? "Escape")%string then setSelectedImage None s else s.

(** *** The component as a machine *)

Inductive Event :=
| EffectRuns                 (* the effect on [isEditMode]: mount, or a toggle *)
| Settles (r : Fetched)      (* an outstanding fetch settles *)
| Click (n : Node)
| KeyDown (key : string).

Definition step (p : Page) (e : Event) : Page :=
  match e with
  | EffectRuns => load_begin p
  | Settles r => if (outstanding p =? 0)%nat then p else load_settle r p
  | Click n => with_state (click n) p
  | KeyDown key => with_state (handleEsc key) p
  end.

Definition run (es : list Event) : Page := fold_left step es mount.

End Component.

(** ** The grouping in the words of the specification *)

Module Spec.

Import Notion Slider.

(** The names of a list in order of first appearance, each once. *)
Fixpoint first_seen (l : list string) : list string :=
  match l with
  | [] => []
  | x :: l' => x :: List.filter (fun y => negb (y =? x)%string) (first_seen l')
  end.

Definition mem (c : string) (l : list string) : bool :=
  existsb (fun y => (y =? c)%string) l.

(** The projects of the records that pass the component's guard, in source
    order. *)
Definition valid_projects (results : list NotionPage) : list Project :=
  flat_map (fun page => match project_of page with Some p => [p] | None => [] end) results.

Definition in_category (c : string) (p : Project) : bool := (category p =? c)%string.

(** The grouping in the words of the specification: one group per name in
    order of first appearance, holding the projects of that name in source
    order. *)
Definition grouped (ps : list Project) : OrderedMap.t (list Project) :=
  map (fun c => (c, List.filter (in_category c) ps)) (first_seen (map category ps)).

End Spec.

(** ** Sample data *)

Module Samples.

Import Notion Slider.

(** Sample records: two in "Web" (the first with a link), one in "Mobile",
    one without a cover, and one whose category selection has no name. *)
Definition cover (u : string) : NotionFile :=
  {| file_name := "cover.png"; file := {| url := u; expiry_time := "2025-01-01T00:00:00.000Z" |} |}.
Definition skill (s : string) : NotionRichText :=
  {| text := {| content := s; text_link := None |}; plain_text := s |}.
Definition select (n : string) : NotionSelect :=
  {| select_id := "s"; name := n; color := "blue" |}.
Definition record (i : string) (covers : list NotionFile) (l : option string)
           (sk : list NotionRichText) (c : option NotionSelect) : NotionPage :=
  {| id := i; archived := false;
     properties := {| Cover := covers; Link := l; Skills := sk; Category := c; Name := [] |} |}.

Definition p1 := record "p1" [cover "https://img/1"] (Some "https://example.com")
                        [skill "React"; skill "Next.js"] (Some (select "Web")).
Definition p2 := record "p2" [cover "https://img/2"] None [skill "Vue"] (Some (select "Web")).
Definition p3 := record "p3" [cover "https://img/3"] (Some "") [skill "Swift"] (Some (select "Mobile")).
Definition no_cover := record "p4" [] None [skill "Go"] (Some (select "Web")).
Definition unnamed := record "p5" [cover "https://img/5"] None [skill "Rust"] (Some (select "")).

(** A server with its credential, and one without. *)
Definition configured : Route.Env :=
  {| Route.NOTION_TOKEN := Some "secret_token"; Route.NOTION_DATABASE_ID := None |}.
Definition unconfigured : Route.Env :=
  {| Route.NOTION_TOKEN := None; Route.NOTION_DATABASE_ID := None |}.

(** Upstream answers: 200 with a result list, 200 with a JSON object
    that has no [results], and a rate-limit answer. *)
Definition listing (rs : list NotionPage) : Route.UpstreamResponse :=
  {| Route.upstream_status := 200; Route.upstream_text := "";
     Route.upstream_json := Some (Route.ResultList rs) |}.
Definition no_results : Route.UpstreamResponse :=
  {| Route.upstream_status := 200; Route.upstream_text := "{}";
     Route.upstream_json := Some Route.NoResultList |}.
Definition rate_limited : Route.UpstreamResponse :=
  {| Route.upstream_status := 429; Route.upstream_text := "rate limited";
     Route.upstream_json := None |}.
Definition not_modified : Route.UpstreamResponse :=
  {| Route.upstream_status := 304; Route.upstream_text := "";
     Route.upstream_json := None |}.

(** [POST] requests: the body [{}], and a body of length zero. *)
Definition empty_object : Route.Request :=
  {| Route.request_json := Some {| Route.filters := None; Route.sorts := None |} |}.
Definition no_body : Route.Request := {| Route.request_json := None |}.

(** A record whose only cover file has the empty string as its URL, and
    the component after a load that delivered just that record. *)
Definition blank_cover := record "p6" [cover ""] None [skill "C"] (Some (select "Web")).
Definition showing_blank : Component.State :=
  {| Component.categories := transformNotionData [blank_cover];
     Component.loading := false;
     Component.selectedImage := None |}.

(** The component after a load that delivered [p2], with the overlay
    showing its picture. *)
Definition showing_p2 : Component.State :=
  {| Component.categories := transformNotionData [p1; no_cover; p2; p3];
     Component.loading := false;
     Component.selectedImage := Some "https://img/2" |}.

End Samples.

(** ** The component's editable settings: title, subtitle and background *)

Module Settings.

(** [ProjectsSliderInfo.background]; [opacity] is a JavaScript number. *)
Record Background := {
  image : string;
  video : string;
  color : string;
  opacity : PrimFloat.float
}.

(** [interface ProjectsSliderInfo] *)
Record ProjectsSliderInfo := {
  title : string;
  subtitle : string;
  background : Background
}.

(** [defaultInfo]; the literal [0.1] is the double nearest to one tenth. *)
Definition defaultInfo : ProjectsSliderInfo :=
  {| title := "프로젝트";
     subtitle := "카테고리별 프로젝트 포트폴리오";
     background := {| image := ""; video := ""; color := "";
                      opacity := 0x1.999999999999ap-4%float |} |}.

(** What [getData('projects-slider-info')] hands back when something is
    stored: an object that has some or all of the fields. *)
Record SavedInfo := {
  saved_title : option string;
  saved_subtitle : option string;
  saved_background : option Background
}.

(** The argument of the background's [onChange]: the fields that changed. *)
Record BackgroundChange := {
  new_image : option string;
  new_video : option string;
  new_color : option string;
  new_opacity : option PrimFloat.float
}.

(** A field of a spread [{ ...a, ...b }]: [b]'s when [b] has it. *)
Definition over {A : Type} (a : A) (b : option A) : A :=
  match b with
  | Some v => v
  | None => a
  end.

(** [{ ...defaultInfo, ...savedData }] *)
Definition merge_info (d : ProjectsSliderInfo) (s : SavedInfo) : ProjectsSliderInfo :=
  {| title := over (title d) (saved_title s);
     subtitle := over (subtitle d) (saved_subtitle s);
     background := over (background d) (saved_background s) |}.

(** [{ ...backgroundData, ...data }] *)
Definition merge_background (b : Background) (data : BackgroundChange) : Background :=
  {| image := over (image b) (new_image data);
     video := over (video b) (new_video data);
     color := over (color b) (new_color data);
     opacity := over (opacity b) (new_opacity data) |}.

(** The two [useState] cells, and the calls of [saveData] made so far. *)
Inductive Stored :=
| StoredInfo (v : ProjectsSliderInfo)
| StoredBackground (v : Background).

Record Editor := {
  sliderInfo : ProjectsSliderInfo;
  backgroundData : Background;
  saves : list (string * Stored)
}.

(** [useState(defaultInfo)] and [useState(defaultInfo.background)] *)
Definition initial : Editor :=
  {| sliderInfo := defaultInfo; backgroundData := background defaultInfo; saves := [] |}.

Definition setSliderInfo (v : ProjectsSliderInfo) (e : Editor) : Editor :=
  {| sliderInfo := v; backgroundData := backgroundData e; saves := saves e |}.
Definition setBackgroundData (v : Background) (e : Editor) : Editor :=
  {| sliderInfo := sliderInfo e; backgroundData := v; saves := saves e |}.
Definition saveData (key : string) (v : Stored) (e : Editor) : Editor :=
  {| sliderInfo := sliderInfo e; backgroundData := backgroundData e;
     saves := saves e ++ [(key, v)] |}.

(** The effect on [isEditMode], up to the call of [loadProjectsFromNotion]:
    [savedData] and [savedBg] are what the two calls of [getData] returned. *)
Definition load_saved (savedData : option SavedInfo) (savedBg : option Background)
           (e : Editor) : Editor :=
  let e :=
    match savedData with
    | Some saved =>
        let mergedData := merge_info defaultInfo saved in
        let e := setSliderInfo mergedData e in
        match saved_background saved with
        | Some b => setBackgroundData b e
        | None => e
        end
    | None => e
    end in
  match savedBg with
  | Some b => setBackgroundData b e
  | None => e
  end.

(** The keys [updateSliderInfo] is called with; their values are strings. *)
Inductive TextKey := title_key | subtitle_key.

(** [updateSliderInfo(key, value)] *)
Definition updateSliderInfo (key : TextKey) (value : string) (e : Editor) : Editor :=
  let newInfo :=
    match key with
    | title_key => {| title := value; subtitle := subtitle (sliderInfo e);
                      background := background (sliderInfo e) |}
    | subtitle_key => {| title := title (sliderInfo e); subtitle := value;
                         background := background (sliderInfo e) |}
    end in
  saveData "projects-slider-info" (StoredInfo newInfo) (setSliderInfo newInfo e).

(** The [onChange] passed to [EditableBackground]. *)
Definition onChange (data : BackgroundChange) (e : Editor) : Editor :=
  let newData := merge_background (backgroundData e) data in
  let updatedSliderInfo :=
    {| title := title (sliderInfo e); subtitle := subtitle (sliderInfo e);
       background := newData |} in
  saveData "projects-slider-info" (StoredInfo updatedSliderInfo)
    (setSliderInfo updatedSliderInfo
       (saveData "projects-slider-background" (StoredBackground newData)
          (setBackgroundData newData e))).

(** The owner's edits. *)
Inductive Edit :=
| EditText (key : TextKey) (value : string)
| EditBackground (data : BackgroundChange).

Definition apply_edit (e : Editor) (ed : Edit) : Editor :=
  match ed with
  | EditText key value => updateSliderInfo key value e
  | EditBackground data => onChange data e
  end.

Definition edits (eds : list Edit) (e : Editor) : Editor := fold_left apply_edit eds e.

(** The last value passed to [saveData] under each of the two keys. *)
Fixpoint last_info (l : list (string * Stored)) (acc : option ProjectsSliderInfo)
  : option ProjectsSliderInfo :=
  match l with
  | [] => acc
  | (k, StoredInfo v) :: l' =>
      last_info l' (if (k =? "projects-slider-info")%string then Some v else acc)
  | _ :: l' => last_info l' acc
  end.

Fixpoint last_background (l : list (string * Stored)) (acc : option Background)
  : option Background :=
  match l with
  | [] => acc
  | (k, StoredBackground v) :: l' =>
      last_background l' (if (k =? "projects-slider-background")%string then Some v else acc)
  | _ :: l' => last_background l' acc
  end.

(** A stored, complete info object as [getData] returns it. *)
Definition as_saved (v : ProjectsSliderInfo) : SavedInfo :=
  {| saved_title := Some (title v); saved_subtitle := Some (subtitle v);
     saved_background := Some (background v) |}.

End Settings.

(** ** The strips: container refs and [scrollSlider] *)

Module Scroll.

Import Slider.

Inductive Direction := left | right.

(** [sliderRefs.current]: category name to the container element (an
    element is named by the position of its strip) or [null]. *)
Definition Refs := OrderedMap.t (option nat).

(** The callbacks [ref={(el) => { sliderRefs.current[category.name] = el }}]
    of the strips of one commit, called in document order from strip [i] on. *)
Fixpoint attach_from (i : nat) (cats : list ProjectCategory) (refs : Refs) : Refs :=
  match cats with
  | [] => refs
  | c :: cats' => attach_from (S i) cats' (OrderedMap.set (category_name c) (Some i) refs)
  end.

Definition attach (cats : list ProjectCategory) (refs : Refs) : Refs :=
  attach_from 0 cats refs.

(** The argument of [slider.scrollTo] and the element it is called on. *)
Record ScrollTo := { element : nat; to_left : Z; behavior : string }.

Definition scrollAmount : Z := 320.

(** [scrollSlider(categoryName, direction)]; [scrollLeft] gives the current
    offset of each element.  [None]: the function returns without a call. *)
Definition scrollSlider (refs : Refs) (scrollLeft : nat -> Z)
           (categoryName : string) (direction : Direction) : option ScrollTo :=
  match OrderedMap.get categoryName refs with
  | Some (Some slider) =>
      let newScrollLeft :=
        match direction with
        | left => (scrollLeft slider - scrollAmount)%Z
        | right => (scrollLeft slider + scrollAmount)%Z
        end in
      Some {| element := slider; to_left := newScrollLeft; behavior := "smooth" |}
  | _ => None
  end.

End Scroll.

(** ** Shapes used in the statements about the route *)

Module RouteShapes.

Import Notion Route.

(** The request both handlers send, up to its body. *)
Definition sent (env : Env) (b : option QueryBody) : UpstreamRequest :=
  {| fetch_url := query_url env; fetch_method := "POST";
     fetch_headers := query_headers env; fetch_body := b; revalidate := 300 |}.

(** An answer of either handler: success with status 200, or a failure with
    status 500 or with the status of an upstream answer outside 200-299 that
    [NextResponse.json] accepts. *)
Definition answer_shape (up : Upstream) (resp : HttpResponse) : Prop :=
  (status resp = 200%Z /\ exists rs, body resp = succeeded rs)
  \/ (status resp <> 200%Z
      /\ (exists msg, body resp = failure msg)
      /\ (status resp = 500%Z
          \/ exists r, up = Responds r /\ ok r = false
                       /\ status resp = upstream_status r
                       /\ (300 <= upstream_status r <= 599)%Z
                       /\ upstream_status r <> 304%Z)).

End RouteShapes.

(** * Properties *)

(** ** Truthiness *)

Module JSFacts.

Lemma truthy_true (s : string) : JS.truthy s = true <-> s <> "".
Proof.
  unfold JS.truthy. rewrite negb_true_iff. split.
  - intros H E. subst s. discriminate H.
  - intros H. apply String.eqb_neq. exact H.
Qed.

Lemma truthy_false (s : string) : JS.truthy s = false <-> s = "".
Proof.
  unfold JS.truthy. rewrite negb_false_iff. apply String.eqb_eq.
Qed.

Lemma or_undefined_some (o : option string) (u : string) :
  JS.or_undefined o = Some u <-> o = Some u /\ u <> "".
Proof.
  destruct o as [s|]; simpl.
  - destruct (JS.truthy s) eqn:T.
    + apply truthy_true in T. split.
      * intros E. injection E as ->. split; [reflexivity | exact T].
      * intros [E _]. exact E.
    + apply truthy_false in T. subst s. split.
      * discriminate.
      * intros [E N]. injection E as <-. now elim N.
  - split; [discriminate | intros [E _]; discriminate E].
Qed.

Lemma or_undefined_none (o : option string) :
  JS.or_undefined o = None <-> o = None \/ o = Some "".
Proof.
  destruct o as [s|]; simpl.
  - destruct (JS.truthy s) eqn:T.
    + apply truthy_true in T. split; [discriminate |].
      intros [E|E]; [discriminate E | injection E as ->; now elim T].
    + apply truthy_false in T. subst s. split; auto.
  - split; auto.
Qed.


End JSFacts.

(** ** Grouping: what [transformNotionData] computes *)

Module Grouping.

Import Notion Slider Spec.

Lemma mem_In (c : string) (l : list string) : mem c l = true <-> In c l.
Proof.
  unfold mem. rewrite existsb_exists. split.
  - intros [y [Hy E]]. apply String.eqb_eq in E. now subst y.
  - intros H. exists c. split; [exact H | apply String.eqb_refl].
Qed.

Lemma mem_app (c : string) (l1 l2 : list string) :
  mem c (l1 ++ l2) = mem c l1 || mem c l2.
Proof. unfold mem. apply existsb_app. Qed.

Lemma first_seen_In (x : string) (l : list string) : In x (first_seen l) <-> In x l.
Proof.
  induction l as [|a l IH]; simpl; [tauto|].
  rewrite filter_In, IH, negb_true_iff, String.eqb_neq.
  destruct (String.string_dec a x) as [E|N]; [tauto|].
  split; [tauto|]. intros [H|H]; [tauto|]. right. split; [exact H|congruence].
Qed.

Lemma first_seen_NoDup (l : list string) : NoDup (first_seen l).
Proof.
  induction l as [|a l IH]; simpl; constructor.
  - rewrite filter_In, String.eqb_refl. simpl. intros [_ H]. discriminate H.
  - now apply NoDup_filter.
Qed.

Lemma mem_first_seen (c : string) (l : list string) : mem c (first_seen l) = mem c l.
Proof.
  apply eq_true_iff_eq. rewrite !mem_In. apply first_seen_In.
Qed.

(** Appending one name: it is new, and goes last, or it changes nothing. *)
Lemma first_seen_snoc (l : list string) (c : string) :
  first_seen (l ++ [c]) = if mem c l then first_seen l else first_seen l ++ [c].
Proof.
  induction l as [|a l IH]; simpl; [reflexivity|].
  rewrite IH. destruct (String.eqb_spec a c) as [->|N]; simpl.
  - destruct (mem c l); [reflexivity|].
    rewrite filter_app. simpl. rewrite String.eqb_refl. simpl.
    now rewrite app_nil_r.
  - destruct (mem c l); [reflexivity|].
    rewrite filter_app. simpl.
    destruct (String.eqb_spec c a) as [E|_]; [now elim N|]. reflexivity.
Qed.

(** The first name of the list is the first name of the result. *)
Lemma first_seen_head (c : string) (l : list string) :
  exists rest, first_seen (c :: l) = c :: rest.
Proof. simpl. eexists. reflexivity. Qed.

Section MapFacts.
Variable A : Type.
Implicit Types (m : OrderedMap.t (list A)) (f : string -> list A).

Lemma has_keys (V : Type) (k : string) (m : OrderedMap.t V) :
  OrderedMap.has k m = mem k (OrderedMap.keys m).
Proof.
  induction m as [|[k' v] m IH]; simpl; [reflexivity|].
  rewrite IH. now destruct (k' =? k)%string.
Qed.

Lemma set_fresh (V : Type) (k : string) (v : V) (m : OrderedMap.t V) :
  OrderedMap.has k m = false -> OrderedMap.set k v m = m ++ [(k, v)].
Proof.
  induction m as [|[k' v'] m IH]; simpl; [reflexivity|].
  destruct (k' =? k)%string; [discriminate|].
  intros H. now rewrite IH.
Qed.

(** On a map whose keys are distinct, [push_at] is a pointwise update. *)
Lemma push_at_tabulate (k : string) (x : A) f (ks : list string) :
  NoDup ks ->
  OrderedMap.push_at k x (map (fun c => (c, f c)) ks)
  = map (fun c => (c, if (c =? k)%string then f c ++ [x] else f c)) ks.
Proof.
  induction 1 as [|a ks Hnin Hnd IH]; simpl; [reflexivity|].
  destruct (String.eqb_spec a k) as [->|N].
  - f_equal. apply map_ext_in. intros c Hc.
    destruct (String.eqb_spec c k) as [->|_]; [now elim Hnin | reflexivity].
  - now rewrite IH.
Qed.
End MapFacts.

Lemma keys_grouped (ps : list Project) :
  OrderedMap.keys (grouped ps) = first_seen (map category ps).
Proof.
  unfold OrderedMap.keys, grouped. rewrite map_map. simpl. apply map_id.
Qed.

Lemma has_grouped (c : string) (ps : list Project) :
  OrderedMap.has c (grouped ps) = mem c (map category ps).
Proof. now rewrite has_keys, keys_grouped, mem_first_seen. Qed.

Lemma filter_none (c : string) (ps : list Project) :
  mem c (map category ps) = false -> List.filter (in_category c) ps = [].
Proof.
  induction ps as [|p ps IH]; simpl; [reflexivity|].
  unfold in_category at 1.
  destruct (category p =? c)%string; simpl; [discriminate | exact IH].
Qed.

Lemma grouped_snoc (ps : list Project) (p : Project) :
  grouped (ps ++ [p])
  = map (fun c => (c, List.filter (in_category c) ps
                      ++ (if (c =? category p)%string then [p] else [])))
        (if mem (category p) (map category ps)
         then first_seen (map category ps)
         else first_seen (map category ps) ++ [category p]).
Proof.
  unfold grouped. rewrite map_app.
  change (map category [p]) with [category p]. rewrite first_seen_snoc.
  apply map_ext. intros c. rewrite filter_app. simpl. unfold in_category at 2.
  rewrite (String.eqb_sym c). now destruct (category p =? c)%string.
Qed.

(** Visiting one more valid record extends the grouping by its project. *)
Lemma push_grouped (ps : list Project) (p : Project) :
  OrderedMap.push_at (category p) p
    (if OrderedMap.has (category p) (grouped ps) then grouped ps
     else OrderedMap.set (category p) [] (grouped ps))
  = grouped (ps ++ [p]).
Proof.
  rewrite has_grouped, grouped_snoc.
  destruct (mem (category p) (map category ps)) eqn:Hm.
  - unfold grouped. rewrite push_at_tabulate by apply first_seen_NoDup.
    apply map_ext. intros c.
    destruct (c =? category p)%string; [reflexivity | now rewrite app_nil_r].
  - assert (Hnd : NoDup (first_seen (map category ps) ++ [category p])).
    { generalize (first_seen_NoDup (map category ps ++ [category p])).
      now rewrite first_seen_snoc, Hm. }
    rewrite set_fresh by (now rewrite has_grouped).
    replace (grouped ps ++ [(category p, [])])
      with (map (fun c => (c, if (c =? category p)%string then []
                              else List.filter (in_category c) ps))
                (first_seen (map category ps) ++ [category p])).
    + rewrite push_at_tabulate by exact Hnd.
      apply map_ext. intros c.
      destruct (String.eqb_spec c (category p)) as [->|_].
      * now rewrite filter_none by exact Hm.
      * now rewrite app_nil_r.
    + rewrite map_app. simpl. rewrite String.eqb_refl. unfold grouped. f_equal.
      apply map_ext. intros c.
      destruct (String.eqb_spec c (category p)) as [->|_]; [|reflexivity].
      now rewrite filter_none by exact Hm.
Qed.

Lemma visit_grouped (ps : list Project) (page : NotionPage) :
  visit (grouped ps) page
  = grouped (ps ++ match project_of page with Some p => [p] | None => [] end).
Proof.
  unfold visit. destruct (project_of page) as [p|].
  - apply push_grouped.
  - now rewrite app_nil_r.
Qed.

Lemma fold_visit_grouped (results : list NotionPage) (ps : list Project) :
  fold_left visit results (grouped ps) = grouped (ps ++ valid_projects results).
Proof.
  revert ps. induction results as [|page results IH]; intros ps; simpl.
  - now rewrite app_nil_r.
  - rewrite visit_grouped, IH, <- app_assoc. reflexivity.
Qed.

(** [transformNotionData] is the grouping of the valid projects. *)
Lemma transform_grouped (results : list NotionPage) :
  transformNotionData results
  = map (fun c => {| category_name := c;
                     projects := List.filter (in_category c) (valid_projects results) |})
        (first_seen (map category (valid_projects results))).
Proof.
  unfold transformNotionData, OrderedMap.entries.
  change OrderedMap.empty with (grouped []).
  rewrite fold_visit_grouped. simpl. unfold grouped. rewrite map_map. reflexivity.
Qed.

End Grouping.

(** ** The transform: validation, grouping and the fields of a project *)

Module Transform.

Import Notion Slider Spec Grouping Samples.

(** The guard fails exactly on a missing cover, category or skills entry. *)
Lemma missing_required_iff (page : NotionPage) :
  missing_required page = true
  <-> Cover (properties page) = [] \/ Category (properties page) = None
      \/ Skills (properties page) = [].
Proof.
  unfold missing_required.
  destruct (Cover (properties page)), (Category (properties page)),
           (Skills (properties page)); simpl; split; intros H; auto;
    try discriminate; destruct H as [H|[H|H]]; discriminate.
Qed.

(** A record that passes the guard yields the project of the object literal. *)
Lemma project_of_some (page : NotionPage) (p : Project) :
  project_of page = Some p ->
  missing_required page = false
  /\ exists f rest sel,
       Cover (properties page) = f :: rest
       /\ Category (properties page) = Some sel
       /\ p = {| project_id := id page;
                 image := url (file f);
                 link := JS.or_undefined (Link (properties page));
                 skills := JS.join ", " (map plain_text (Skills (properties page)));
                 category := name sel |}.
Proof.
  unfold project_of. destruct (missing_required page); [discriminate|].
  destruct (Cover (properties page)) as [|f rest]; [discriminate|].
  destruct (Category (properties page)) as [sel|]; [|destruct rest; discriminate].
  intros E. injection E as <-. split; [reflexivity|].
  exists f, rest, sel. auto.
Qed.

Lemma project_of_none (page : NotionPage) :
  project_of page = None <-> missing_required page = true.
Proof.
  unfold project_of, missing_required.
  destruct (Cover (properties page)), (Category (properties page)),
           (Skills (properties page)); simpl; split; intros H;
    try reflexivity; discriminate.
Qed.

Lemma valid_projects_In (results : list NotionPage) (p : Project) :
  In p (valid_projects results)
  <-> exists page, In page results /\ project_of page = Some p.
Proof.
  unfold valid_projects. rewrite in_flat_map. split.
  - intros [page [Hin Hp]]. exists page. split; [exact Hin|].
    destruct (project_of page) as [q|]; simpl in Hp; [|tauto].
    destruct Hp as [->|[]]. reflexivity.
  - intros [page [Hin Hp]]. exists page. split; [exact Hin|].
    rewrite Hp. now left.
Qed.

Lemma transform_In (results : list NotionPage) (g : ProjectCategory) :
  In g (transformNotionData results)
  <-> In (category_name g) (map category (valid_projects results))
      /\ projects g = List.filter (in_category (category_name g)) (valid_projects results).
Proof.
  rewrite transform_grouped, in_map_iff. split.
  - intros [c [<- Hc]]. simpl. apply -> first_seen_In in Hc. auto.
  - intros [Hc Hp]. exists (category_name g). split.
    + destruct g as [n ps]. simpl in *. now rewrite Hp.
    + now apply <- first_seen_In.
Qed.

(** The scenario of the specification. *)
Example transform_web_mobile :
  transformNotionData [p1; no_cover; p2; p3]
  = [ {| category_name := "Web";
         projects := [ {| project_id := "p1"; image := "https://img/1";
                          link := Some "https://example.com";
                          skills := "React, Next.js"; category := "Web" |};
                       {| project_id := "p2"; image := "https://img/2"; link := None;
                          skills := "Vue"; category := "Web" |} ] |};
      {| category_name := "Mobile";
         projects := [ {| project_id := "p3"; image := "https://img/3"; link := None;
                          skills := "Swift"; category := "Mobile" |} ] |} ].
Proof. reflexivity. Qed.

(** C1.  [transformNotionData] groups the valid records: the group names
    are the categories of the valid records in order of first appearance
    (so the category of the first valid record comes first), each group
    holds the valid projects of its name in source order, every valid
    project is in the group of its category, and no name occurs twice. *)
Theorem transformNotionData_groups_in_order (results : list NotionPage) :
  map category_name (transformNotionData results)
  = first_seen (map category (valid_projects results))
  /\ (forall p rest, valid_projects results = p :: rest ->
        exists g gs, transformNotionData results = g :: gs
                     /\ category_name g = category p)
  /\ (forall g, In g (transformNotionData results) ->
        projects g
        = List.filter (in_category (category_name g)) (valid_projects results))
  /\ (forall p, In p (valid_projects results) ->
        exists g, In g (transformNotionData results)
                  /\ category_name g = category p /\ In p (projects g))
  /\ NoDup (map category_name (transformNotionData results)).
Proof.
  assert (Hn : map category_name (transformNotionData results)
               = first_seen (map category (valid_projects results))).
  { rewrite transform_grouped, map_map. simpl. apply map_id. }
  split; [exact Hn|]. split; [|split; [|split]].
  - intros p rest E. rewrite transform_grouped, E. simpl.
    eexists; eexists; split; reflexivity.
  - intros g Hg. now apply transform_In in Hg.
  - intros p Hp.
    exists {| category_name := category p;
              projects := List.filter (in_category (category p)) (valid_projects results) |}.
    split; [|split; [reflexivity|]].
    + apply transform_In. simpl. split; [now apply in_map | reflexivity].
    + simpl. apply filter_In. split; [exact Hp|].
      unfold in_category. apply String.eqb_refl.
  - rewrite Hn. apply first_seen_NoDup.
Qed.

(** C9.  Every project in a group carries the group's name as its
    category, and its image is the URL of the first cover file of the
    record it was built from. *)
Theorem group_projects_match_name_and_cover (results : list NotionPage)
        (g : ProjectCategory) (p : Project) :
  In g (transformNotionData results) ->
  In p (projects g) ->
  category p = category_name g
  /\ exists page f rest,
       In page results
       /\ project_of page = Some p
       /\ project_id p = id page
       /\ Cover (properties page) = f :: rest
       /\ image p = url (file f).
Proof.
  intros Hg Hp. apply transform_In in Hg. destruct Hg as [_ Hg].
  rewrite Hg in Hp. apply filter_In in Hp. destruct Hp as [Hv Hc].
  split; [now apply String.eqb_eq in Hc|].
  apply valid_projects_In in Hv. destruct Hv as [page [Hin Hof]].
  destruct (project_of_some page p Hof) as [_ [f [rest [sel [Hcov [_ ->]]]]]].
  exists page, f, rest. simpl. repeat split; auto.
Qed.

Lemma group_projects_match_name_and_cover_witness :
  let mobile := {| project_id := "p3"; image := "https://img/3"; link := None;
                   skills := "Swift"; category := "Mobile" |} in
  let g := {| category_name := "Mobile"; projects := [mobile] |} in
  In g (transformNotionData [p1; no_cover; p2; p3])
  /\ In mobile (projects g)
  /\ category mobile = category_name g
  /\ exists page f rest,
       In page [p1; no_cover; p2; p3]
       /\ project_of page = Some mobile
       /\ project_id mobile = id page
       /\ Cover (properties page) = f :: rest
       /\ image mobile = url (file f).
Proof.
  intros mobile g.
  assert (Hg : In g (transformNotionData [p1; no_cover; p2; p3])).
  { rewrite transform_web_mobile. right. left. reflexivity. }
  assert (Hp : In mobile (projects g)) by (left; reflexivity).
  split; [exact Hg|]. split; [exact Hp|].
  exact (group_projects_match_name_and_cover _ _ _ Hg Hp).
Defined.

End Transform.

(** ** The route: filter, envelopes and the missing credential *)

Module RouteFacts.

Import Notion Route Samples.

(** What the filter callback accepts. *)
Lemma keep_iff (page : NotionPage) :
  keep page = true
  <-> archived page = false
      /\ Cover (properties page) <> []
      /\ (exists sel, Category (properties page) = Some sel /\ name sel <> "")
      /\ Skills (properties page) <> [].
Proof.
  unfold keep. rewrite !andb_true_iff, negb_true_iff, !Nat.ltb_lt.
  split.
  - intros [[[Ha Hc] Hs] Hk]. repeat split; auto.
    + intros E. rewrite E in Hc. simpl in Hc. lia.
    + destruct (Category (properties page)) as [sel|]; [|discriminate Hs].
      exists sel. split; [reflexivity|]. now apply JSFacts.truthy_true.
    + intros E. rewrite E in Hk. simpl in Hk. lia.
  - intros [Ha [Hc [[sel [Hs Hn]] Hk]]]. rewrite Hs. simpl. repeat split; auto.
    + destruct (Cover (properties page)); [congruence | simpl; lia].
    + now apply JSFacts.truthy_true.
    + destruct (Skills (properties page)); [congruence | simpl; lia].
Qed.

(** The handler's answer when the upstream answer is accepted. *)
Lemma GET_accepted (env : Env) (r : UpstreamResponse) (rs : list NotionPage) (w : World) :
  JS.truthy_opt (NOTION_TOKEN env) = true ->
  ok r = true ->
  upstream_json r = Some (ResultList rs) ->
  fst (GET env (Responds r) w) = Value (json_ok (succeeded (List.filter keep rs))).
Proof.
  intros Ht Hok Hj. unfold GET, try_catch, bind, fetch, response_json.
  rewrite Ht. simpl. rewrite Hok, Hj. reflexivity.
Qed.

(** C2, as amended.  When the credential is set and the upstream answers
    with a success status and a result list, [GET] answers 200 with
    [{success: true, results, total}] where [results] is the sublist of the
    records that are not archived, have a cover file, have a category
    selection whose name is not empty, and have a skills entry, and [total]
    is its length. *)
Theorem GET_returns_filtered_records
        (env : Env) (r : UpstreamResponse) (rs : list NotionPage) :
  JS.truthy_opt (NOTION_TOKEN env) = true ->
  ok r = true ->
  upstream_json r = Some (ResultList rs) ->
  exists filtered,
    fst (run (GET env (Responds r)))
    = Value {| status := 200;
               body := {| success := true; results := Some filtered;
                          total := Some (List.length filtered); error := None |} |}
    /\ filtered = List.filter keep rs
    /\ forall page,
         In page filtered
         <-> In page rs
             /\ archived page = false
             /\ Cover (properties page) <> []
             /\ (exists sel, Category (properties page) = Some sel /\ name sel <> "")
             /\ Skills (properties page) <> [].
Proof.
  intros Ht Hok Hj. exists (List.filter keep rs). split; [|split].
  - unfold run. now rewrite GET_accepted with (rs := rs).
  - reflexivity.
  - intros page. rewrite filter_In, keep_iff. reflexivity.
Qed.

Lemma GET_returns_filtered_records_witness :
  exists filtered,
    fst (run (GET configured (Responds (listing [p1; no_cover; unnamed; p3]))))
    = Value {| status := 200;
               body := {| success := true; results := Some filtered;
                          total := Some (List.length filtered); error := None |} |}
    /\ filtered = List.filter keep [p1; no_cover; unnamed; p3]
    /\ forall page,
         In page filtered
         <-> In page [p1; no_cover; unnamed; p3]
             /\ archived page = false
             /\ Cover (properties page) <> []
             /\ (exists sel, Category (properties page) = Some sel /\ name sel <> "")
             /\ Skills (properties page) <> [].
Proof.
  apply (@GET_returns_filtered_records configured
           (listing [p1; no_cover; unnamed; p3]) [p1; no_cover; unnamed; p3]);
    reflexivity.
Defined.

(** C2, as stated, fails: a record that is not archived and has a cover
    file, a category selection that is not null and a skills entry is left
    out of the results when the name of its selection is empty. *)
Lemma GET_drops_unnamed_selection :
  (archived unnamed = false
   /\ Cover (properties unnamed) <> []
   /\ Category (properties unnamed) <> None
   /\ Skills (properties unnamed) <> [])
  /\ exists filtered,
       fst (run (GET configured (Responds (listing [unnamed]))))
       = Value (json_ok (succeeded filtered))
       /\ ~ In unnamed filtered.
Proof.
  split.
  - repeat split; discriminate.
  - exists []. split; [reflexivity | intros []].
Qed.

(** Without the credential neither handler reaches [fetch]. *)
Lemma GET_unconfigured (env : Env) (up : Upstream) (w : World) :
  JS.truthy_opt (NOTION_TOKEN env) = false ->
  GET env up w = (Value (json_status (failure token_missing) 500), w).
Proof.
  intros Ht. unfold GET, try_catch. rewrite Ht. reflexivity.
Qed.

Lemma POST_unconfigured (request : Request) (env : Env) (up : Upstream) (w : World) :
  JS.truthy_opt (NOTION_TOKEN env) = false ->
  exists msg,
    fst (POST request env up w) = Value (json_status (failure msg) 500)
    /\ upstream_calls (snd (POST request env up w)) = upstream_calls w.
Proof.
  intros Ht. unfold POST, try_catch, bind, read_json.
  destruct (request_json request) as [b|]; simpl.
  - rewrite Ht. simpl. exists token_missing. auto.
  - exists server_error. auto.
Qed.

(** C7.  While the credential is not set (or is the empty string), [GET]
    and [POST] answer with status 500 and a body [{success: false, error}],
    and no call to the upstream API is made. *)
Theorem missing_credential_is_500_without_upstream_call
        (env : Env) (up : Upstream) (request : Request) (w : World) :
  JS.truthy_opt (NOTION_TOKEN env) = false ->
  (exists msg,
     fst (GET env up w)
     = Value {| status := 500;
                body := {| success := false; results := None;
                           total := None; error := Some msg |} |}
     /\ upstream_calls (snd (GET env up w)) = upstream_calls w)
  /\ (exists msg,
        fst (POST request env up w)
        = Value {| status := 500;
                   body := {| success := false; results := None;
                              total := None; error := Some msg |} |}
        /\ upstream_calls (snd (POST request env up w)) = upstream_calls w).
Proof.
  intros Ht. split.
  - exists token_missing. now rewrite GET_unconfigured by exact Ht.
  - now apply POST_unconfigured.
Qed.

Lemma missing_credential_is_500_without_upstream_call_witness :
  (exists msg,
     fst (GET unconfigured (Responds (listing [p1])) quiet)
     = Value {| status := 500;
                body := {| success := false; results := None;
                           total := None; error := Some msg |} |}
     /\ upstream_calls (snd (GET unconfigured (Responds (listing [p1])) quiet))
        = upstream_calls quiet)
  /\ (exists msg,
        fst (POST empty_object unconfigured (Responds (listing [p1])) quiet)
        = Value {| status := 500;
                   body := {| success := false; results := None;
                              total := None; error := Some msg |} |}
        /\ upstream_calls (snd (POST empty_object unconfigured (Responds (listing [p1])) quiet))
           = upstream_calls quiet).
Proof.
  apply (@missing_credential_is_500_without_upstream_call
           unconfigured (Responds (listing [p1])) empty_object quiet).
  reflexivity.
Defined.

(** With the body [{}], [POST] answers as [GET] does, whatever the
    environment and the upstream do, unless the upstream answer is a
    success whose JSON has no result list. *)
Lemma POST_empty_object_as_GET (env : Env) (up : Upstream) (w : World) :
  (forall r, up = Responds r -> ok r = true -> upstream_json r <> Some NoResultList) ->
  fst (POST empty_object env up w) = fst (GET env up w)
  /\ console (snd (POST empty_object env up w)) = console (snd (GET env up w)).
Proof.
  intros Hup. unfold POST, GET, try_catch, bind, read_json. simpl.
  destruct (JS.truthy_opt (NOTION_TOKEN env)); simpl; [|auto].
  destruct up as [|r]; simpl; [auto|].
  specialize (Hup r eq_refl).
  destruct (ok r); simpl.
  2:{ unfold NextResponse_json.
      destruct (negb ((200 <=? upstream_status r) && (upstream_status r <=? 599))%Z);
        simpl; [auto|].
      destruct (null_body_status (upstream_status r)); simpl; auto. }
  unfold response_json.
  destruct (upstream_json r) as [[|rs]|]; simpl; auto.
  now elim Hup.
Qed.

(** C3 at the inputs where it fails.  The credential is set and the
    upstream answers 200 with a JSON object that has no [results]: [GET]
    answers 500 with the message of its format check, [POST] with body [{}]
    has no such check and answers 500 with the message of its [catch]
    block.  A [POST] whose body has length zero answers 500 where [GET]
    answers 200. *)
Theorem POST_envelope_differs_from_GET :
  (fst (run (GET configured (Responds no_results)))
   = Value (json_status (failure bad_format) 500)
   /\ fst (run (POST empty_object configured (Responds no_results)))
      = Value (json_status (failure server_error) 500)
   /\ bad_format <> server_error)
  /\ (fst (run (GET configured (Responds (listing [p1]))))
      = Value (json_ok (succeeded [p1]))
      /\ fst (run (POST no_body configured (Responds (listing [p1]))))
         = Value (json_status (failure server_error) 500)).
Proof.
  repeat split. discriminate.
Qed.

(** An upstream failure is passed on with the upstream's status, and its
    body is logged. *)
Example GET_rate_limited :
  fst (run (GET configured (Responds rate_limited)))
  = Value {| status := 429;
             body := failure "Notion API 호출 실패: 429" |}
  /\ console (snd (run (GET configured (Responds rate_limited))))
     = [ {| label := "Notion API 오류:"; detail := LogText "rate limited" |} ]
  /\ List.length (upstream_calls (snd (run (GET configured (Responds rate_limited))))) = 1.
Proof. repeat split. Qed.

End RouteFacts.

(** ** Validation on both sides *)

Module Validation.

Import Notion Slider Samples.

(** C4, as amended.  A record that the route's filter keeps passes the
    component's guard; the two agree on every record that is not archived
    and whose category selection is null or has a name that is not empty;
    the component drops exactly the records without a cover file, without a
    category selection or without a skills entry; and a load that delivers
    results writes nothing to the console, whatever was dropped. *)
Theorem component_guard_against_route_filter (page : NotionPage) :
  (Route.keep page = true -> missing_required page = false)
  /\ (archived page = false ->
      (forall sel, Category (properties page) = Some sel -> name sel <> "") ->
      Route.keep page = negb (missing_required page))
  /\ (project_of page = None
      <-> Cover (properties page) = [] \/ Category (properties page) = None
          \/ Skills (properties page) = [])
  /\ (forall results p,
        Component.console
          (Component.load_settle
             (Component.served (Route.json_ok (Route.succeeded results))) p)
        = Component.console p).
Proof.
  split; [|split; [|split]].
  - intros Hk. apply RouteFacts.keep_iff in Hk.
    destruct Hk as [_ [Hc [[sel [Hs _]] Hsk]]].
    destruct (missing_required page) eqn:Hm; [|reflexivity].
    apply Transform.missing_required_iff in Hm.
    destruct Hm as [Hm|[Hm|Hm]]; congruence.
  - intros Ha Hn. unfold Route.keep, missing_required. rewrite Ha.
    destruct (Category (properties page)) as [sel|] eqn:Hs; simpl.
    + assert (T : JS.truthy (name sel) = true)
        by (apply JSFacts.truthy_true; now apply Hn).
      rewrite T.
      destruct (Cover (properties page)), (Skills (properties page)); reflexivity.
    + destruct (Cover (properties page)), (Skills (properties page)); reflexivity.
  - rewrite Transform.project_of_none. apply Transform.missing_required_iff.
  - intros results p. reflexivity.
Qed.

(** C4, as stated, fails: the component accepts a record whose category
    selection has an empty name, and the route's filter does not, although
    the record is not archived. *)
Lemma guard_and_filter_differ_on_unnamed_selection :
  archived unnamed = false
  /\ missing_required unnamed = false
  /\ (exists p, project_of unnamed = Some p)
  /\ Route.keep unnamed = false.
Proof.
  repeat split. eexists. reflexivity.
Qed.

End Validation.

(** ** The component: loading, the overlay and the cards *)

Module ComponentFacts.

Import Notion Slider Component Samples.

Lemma load_settle_failed (r : Fetched) (p : Page) :
  failed r = true ->
  exists entry,
    load_settle r p
    = {| state := setLoading false (state p);
         console := console p ++ [entry];
         requests := requests p;
         outstanding := pred (outstanding p) |}.
Proof.
  destruct r as [|[data|]]; simpl; intros Hf.
  - eexists. reflexivity.
  - unfold load_settle. apply negb_true_iff in Hf. rewrite Hf. eexists. reflexivity.
  - eexists. reflexivity.
Qed.

(** C5, as amended.  When the fetch fails (a network error, a body that is
    not JSON, or an envelope without success), one call of
    [loadProjectsFromNotion] writes one entry to the console, issues one
    request and no more, ends with [loading] false, and leaves the category
    list as it was before the call; after the first load of a mounted
    component the list is therefore empty. *)
Theorem failed_load_logs_once_and_keeps_categories (r : Fetched) (p : Page) :
  failed r = true ->
  (exists entry, console (loadProjectsFromNotion r p) = console p ++ [entry])
  /\ requests (loadProjectsFromNotion r p) = requests p ++ ["/api/notion/projects"]
  /\ outstanding (loadProjectsFromNotion r p) = outstanding p
  /\ loading (state (loadProjectsFromNotion r p)) = false
  /\ categories (state (loadProjectsFromNotion r p)) = categories (state p)
  /\ categories (state (loadProjectsFromNotion r mount)) = [].
Proof.
  intros Hf. unfold loadProjectsFromNotion.
  destruct (load_settle_failed r (load_begin p) Hf) as [entry E].
  destruct (load_settle_failed r (load_begin mount) Hf) as [entry' E'].
  rewrite E, E'. simpl. repeat split; eauto.
Qed.

Lemma failed_load_logs_once_and_keeps_categories_witness :
  failed (served (Route.json_status (Route.failure Route.token_missing) 500)) = true
  /\ (exists entry,
        console (loadProjectsFromNotion
                   (served (Route.json_status (Route.failure Route.token_missing) 500)) mount)
        = console mount ++ [entry])
  /\ requests (loadProjectsFromNotion
                 (served (Route.json_status (Route.failure Route.token_missing) 500)) mount)
     = requests mount ++ ["/api/notion/projects"]
  /\ outstanding (loadProjectsFromNotion
                    (served (Route.json_status (Route.failure Route.token_missing) 500)) mount)
     = outstanding mount
  /\ loading (state (loadProjectsFromNotion
                       (served (Route.json_status (Route.failure Route.token_missing) 500)) mount))
     = false
  /\ categories (state (loadProjectsFromNotion
                          (served (Route.json_status (Route.failure Route.token_missing) 500)) mount))
     = categories (state mount)
  /\ categories (state (loadProjectsFromNotion
                          (served (Route.json_status (Route.failure Route.token_missing) 500)) mount))
     = [].
Proof.
  split; [reflexivity|].
  apply (@failed_load_logs_once_and_keeps_categories
           (served (Route.json_status (Route.failure Route.token_missing) 500)) mount).
  reflexivity.
Defined.

(** C5, as stated, fails: after a load that delivered a record, a second
    load (the effect runs again when edit mode is toggled) that ends in a
    network error leaves the category list as the first load set it, not
    empty. *)
Lemma failed_reload_keeps_earlier_groups :
  failed Rejects = true
  /\ categories (state (loadProjectsFromNotion Rejects
                          (loadProjectsFromNotion
                             (served (Route.json_ok (Route.succeeded [p2]))) mount)))
     <> [].
Proof.
  split; [reflexivity | discriminate].
Qed.

(** While the overlay is open, a click on the backdrop, on the close
    button, on the container or on the picture does the following. *)
Lemma click_overlay (s : State) :
  JS.truthy_opt (selectedImage s) = true ->
  click Backdrop s = setSelectedImage None s
  /\ click CloseButton s = setSelectedImage None s
  /\ click ModalContainer s = s
  /\ click ModalImage s = s.
Proof.
  intros Ho. unfold click. simpl. rewrite Ho. simpl. auto.
Qed.

(** A click on a card: a [div] card opens the overlay with the card's
    picture, an anchor card leaves the state alone and opens its link. *)
Lemma click_card (s : State) (i j : nat) (p : Project) :
  card_at s i j = Some p ->
  match wrapper p with
  | Div => click (Card i j) s = setSelectedImage (Some (image p)) s
           /\ navigates (Card i j) s = None
  | Anchor href => click (Card i j) s = s /\ navigates (Card i j) s = Some href
  end.
Proof.
  intros Hc. unfold click, navigates. simpl. rewrite Hc.
  destruct (wrapper p); auto.
Qed.

(** C6.  The overlay state is the one nullable [selectedImage] of the
    component.  While it shows picture [a]: a click on a card that is not
    a link replaces [a] by that card's picture, whichever strip the card is
    in; a click on the backdrop, a click on the close button and the Escape
    key each set it to null; a click on the container or on the picture
    inside it changes nothing. *)
Theorem overlay_is_one_value (s : State) (a : string) :
  selectedImage s = Some a ->
  a <> "" ->
  (forall i j p, card_at s i j = Some p -> wrapper p = Div ->
                 selectedImage (click (Card i j) s) = Some (image p))
  /\ selectedImage (click Backdrop s) = None
  /\ selectedImage (click CloseButton s) = None
  /\ selectedImage (handleEsc "Escape" s) = None
  /\ click ModalContainer s = s
  /\ click ModalImage s = s.
Proof.
  intros Hs Ha.
  assert (Ho : JS.truthy_opt (selectedImage s) = true).
  { rewrite Hs. simpl. now apply JSFacts.truthy_true. }
  destruct (click_overlay s Ho) as [Hb [Hc [Hm Hi]]].
  rewrite Hb, Hc, Hm, Hi. repeat split.
  intros i j p Hp Hw. generalize (click_card s i j p Hp). rewrite Hw.
  intros [-> _]. reflexivity.
Qed.

Lemma overlay_is_one_value_witness :
  selectedImage showing_p2 = Some "https://img/2"
  /\ "https://img/2" <> ""
  /\ (forall i j p, card_at showing_p2 i j = Some p -> wrapper p = Div ->
                    selectedImage (click (Card i j) showing_p2) = Some (image p))
  /\ selectedImage (click Backdrop showing_p2) = None
  /\ selectedImage (click CloseButton showing_p2) = None
  /\ selectedImage (handleEsc "Escape" showing_p2) = None
  /\ click ModalContainer showing_p2 = showing_p2
  /\ click ModalImage showing_p2 = showing_p2.
Proof.
  split; [reflexivity|]. split; [discriminate|].
  apply (overlay_is_one_value showing_p2 "https://img/2"); [reflexivity | discriminate].
Defined.

(** Opening picture B over picture A, on the sample page: the card of
    "Mobile" is clicked while the overlay shows a picture of "Web". *)
Example open_mobile_over_web :
  selectedImage (click (Card 1 0) showing_p2) = Some "https://img/3".
Proof. reflexivity. Qed.

(** Any other key leaves the overlay as it is. *)
Lemma handleEsc_other_key (key : string) (s : State) :
  key <> "Escape" -> handleEsc key s = s.
Proof.
  intros Hk. unfold handleEsc. apply String.eqb_neq in Hk. now rewrite Hk.
Qed.

(** C8 at the inputs where it fails.  The component as mounted, before
    its effect has run and before any request was issued, renders the
    empty-state message and no spinner, because [loading] starts as
    [false].  And when the effect runs a second time before the first
    fetch has settled, the first settlement puts [loading] back to
    [false]: the empty-state message is rendered while a fetch is still
    outstanding. *)
Theorem empty_state_rendered_before_fetch_settles :
  (requests mount = []
   /\ outstanding mount = 0
   /\ spinner (render (state mount)) = false
   /\ empty_message (render (state mount)) = true)
  /\ (outstanding (run [EffectRuns; EffectRuns; Settles Rejects]) = 1
      /\ spinner (render (state (run [EffectRuns; EffectRuns; Settles Rejects]))) = false
      /\ empty_message (render (state (run [EffectRuns; EffectRuns; Settles Rejects]))) = true).
Proof.
  repeat split.
Qed.

(** Once the effect has run, and until a fetch settles, the spinner is
    rendered and the empty-state message is not. *)
Lemma loading_after_effect (p : Page) :
  spinner (render (state (step p EffectRuns))) = true
  /\ empty_message (render (state (step p EffectRuns))) = false.
Proof. split; reflexivity. Qed.

(** A settlement ends the loading state, with the empty-state message
    exactly when there are no categories. *)
Lemma settled_view (r : Fetched) (p : Page) :
  spinner (render (state (load_settle r p))) = false
  /\ empty_message (render (state (load_settle r p)))
     = (List.length (categories (state (load_settle r p))) =? 0)%nat.
Proof.
  unfold load_settle.
  destruct r as [|[data|]]; simpl; auto.
Qed.

(** C10, as amended.  A record whose link URL is null or the empty string
    becomes a project without a link; its card is the [div], and a click on
    it navigates nowhere and stores the project's picture, the URL of the
    record's first cover file, in the overlay state: the overlay is then on
    screen with that picture when the URL is not empty, and not on screen
    when it is empty.  The card is an anchor exactly when the record's link
    URL is a string that is not empty, and a click on an anchor card opens
    that URL and leaves the overlay state alone. *)
Theorem card_is_link_only_for_nonempty_url (page : NotionPage) (p : Project) :
  project_of page = Some p ->
  (Link (properties page) = None \/ Link (properties page) = Some "" ->
   link p = None /\ wrapper p = Div)
  /\ (forall href, wrapper p = Anchor href
                   <-> Link (properties page) = Some href /\ href <> "")
  /\ (exists f rest, Cover (properties page) = f :: rest /\ image p = url (file f))
  /\ (forall s i j, card_at s i j = Some p -> wrapper p = Div ->
        click (Card i j) s = setSelectedImage (Some (image p)) s
        /\ navigates (Card i j) s = None
        /\ overlay (render (click (Card i j) s))
           = (if (image p =? "")%string then None else Some (image p))
        /\ (image p <> "" -> overlay (render (click (Card i j) s)) = Some (image p)))
  /\ (forall s i j href, card_at s i j = Some p -> wrapper p = Anchor href ->
        click (Card i j) s = s /\ navigates (Card i j) s = Some href).
Proof.
  intros Hp.
  destruct (Transform.project_of_some page p Hp) as [_ [f [rest [sel [Hcov [_ E]]]]]].
  assert (Hl : link p = JS.or_undefined (Link (properties page))) by (now rewrite E).
  assert (Hw : forall href, wrapper p = Anchor href
                            <-> Link (properties page) = Some href /\ href <> "").
  { intros href. unfold wrapper. rewrite Hl.
    destruct (Link (properties page)) as [u|]; simpl.
    - destruct (JS.truthy u) eqn:T; [rewrite T|].
      + apply JSFacts.truthy_true in T. split.
        * intros H. injection H as <-. auto.
        * intros [H _]. now injection H as <-.
      + apply JSFacts.truthy_false in T. subst u. split; [discriminate|].
        intros [H Hne]. injection H as <-. now elim Hne.
    - split; [discriminate | intros [H _]; discriminate H]. }
  split; [|split; [exact Hw|split; [|split]]].
  - intros Hnone. apply JSFacts.or_undefined_none in Hnone.
    rewrite <- Hl in Hnone. split; [exact Hnone|].
    unfold wrapper. now rewrite Hnone.
  - exists f, rest. split; [exact Hcov | now rewrite E].
  - intros s i j Hc Hd. generalize (click_card s i j p Hc). rewrite Hd.
    intros [Hclick Hnav]. rewrite Hclick. split; [reflexivity|]. split; [exact Hnav|].
    assert (Ho : overlay (render (setSelectedImage (Some (image p)) s))
                 = if (image p =? "")%string then None else Some (image p)).
    { simpl. unfold JS.truthy. now destruct (image p =? "")%string. }
    split; [exact Ho|].
    intros Hne. rewrite Ho. apply String.eqb_neq in Hne. now rewrite Hne.
  - intros s i j href Hc Hd. generalize (click_card s i j p Hc). now rewrite Hd.
Qed.

Lemma card_is_link_only_for_nonempty_url_witness :
  project_of p3
  = Some {| project_id := "p3"; image := "https://img/3"; link := None;
            skills := "Swift"; category := "Mobile" |}
  /\ card_at showing_p2 1 0
     = Some {| project_id := "p3"; image := "https://img/3"; link := None;
               skills := "Swift"; category := "Mobile" |}
  /\ wrapper {| project_id := "p3"; image := "https://img/3"; link := None;
                skills := "Swift"; category := "Mobile" |} = Div
  /\ click (Card 1 0) showing_p2 = setSelectedImage (Some "https://img/3") showing_p2
  /\ navigates (Card 1 0) showing_p2 = None
  /\ overlay (render (click (Card 1 0) showing_p2)) = Some "https://img/3".
Proof.
  destruct (card_is_link_only_for_nonempty_url p3
              {| project_id := "p3"; image := "https://img/3"; link := None;
                 skills := "Swift"; category := "Mobile" |} eq_refl)
    as [Hdiv [_ [_ [Hclick _]]]].
  destruct (Hdiv (or_intror eq_refl)) as [_ Hw].
  destruct (Hclick showing_p2 1 0 eq_refl Hw) as [Hc [Hn [_ Ho]]].
  split; [reflexivity|]. split; [reflexivity|]. split; [exact Hw|].
  split; [exact Hc|]. split; [exact Hn|].
  apply Ho. discriminate.
Defined.

(** C10, as stated, fails: a record without a link whose first cover file
    has the empty string as its URL gets a [div] card, and a click on that
    card opens no overlay. *)
Lemma click_on_blank_cover_opens_no_overlay :
  Link (properties blank_cover) = None
  /\ exists p,
       project_of blank_cover = Some p
       /\ link p = None
       /\ wrapper p = Div
       /\ card_at showing_blank 0 0 = Some p
       /\ navigates (Card 0 0) showing_blank = None
       /\ overlay (render (click (Card 0 0) showing_blank)) = None.
Proof.
  split; [reflexivity|]. eexists. repeat split.
Qed.

(** The scenario of the missing credential, end to end: the route answers
    500, and the component that receives that answer logs it and renders the
    empty state. *)
Example missing_credential_end_to_end :
  forall answer,
    fst (Route.run (Route.GET unconfigured Route.FetchRejects)) = Route.Value answer ->
    Route.status answer = 500%Z
    /\ empty_message (render (state (loadProjectsFromNotion (served answer) mount))) = true
    /\ console (loadProjectsFromNotion (served answer) mount)
       = [ {| Route.label := "Notion 데이터 로드 실패:";
              Route.detail := Route.LogText Route.token_missing |} ].
Proof.
  intros answer E. injection E as <-. repeat split.
Qed.

End ComponentFacts.

(** ** The route, beyond the claims: every path of both handlers *)

Module RouteCases.

Import Notion Route RouteShapes Samples.

(** [NextResponse.json] by cases. *)
Lemma NextResponse_json_run (b : Envelope) (st : Z) (w : World) :
  NextResponse_json b st w
  = if accepts_status st then (Value (json_status b st), w) else (Thrown (refusal st), w).
Proof.
  unfold NextResponse_json, accepts_status, refusal.
  destruct ((200 <=? st) && (st <=? 599))%Z; simpl; [|reflexivity].
  destruct (null_body_status st); reflexivity.
Qed.

(** Among the statuses outside 200-299, the accepted ones are 300-599
    without 304. *)
Lemma accepts_status_not_ok (r : UpstreamResponse) :
  ok r = false ->
  accepts_status (upstream_status r) = true
  <-> (300 <= upstream_status r <= 599)%Z /\ upstream_status r <> 304%Z.
Proof.
  unfold ok, accepts_status, null_body_status. intros Hok.
  rewrite !andb_true_iff, negb_true_iff, !orb_false_iff, !Z.leb_le, !Z.eqb_neq.
  apply andb_false_iff in Hok. rewrite Z.leb_gt, Z.leb_gt in Hok. lia.
Qed.

(** The part of the handlers after [fetch] has resolved with a response
    whose status is outside 200-299. *)
Lemma not_ok_branch (r : UpstreamResponse) (w : World) :
  try_catch
    (errorData <- response_text r ;;
     console_error "Notion API 오류:" (LogText errorData) ;;;
     NextResponse_json (failure (upstream_failed (upstream_status r))) (upstream_status r))
    on_error w
  = if accepts_status (upstream_status r)
    then (Value (json_status (failure (upstream_failed (upstream_status r)))
                             (upstream_status r)),
          {| upstream_calls := upstream_calls w;
             console := console w
                        ++ [ {| label := "Notion API 오류:";
                                detail := LogText (upstream_text r) |} ] |})
    else (Value (json_status (failure server_error) 500),
          {| upstream_calls := upstream_calls w;
             console := (console w
                         ++ [ {| label := "Notion API 오류:";
                                 detail := LogText (upstream_text r) |} ])
                        ++ [ {| label := "Notion 프로젝트 데이터 로드 실패:";
                                detail := LogException (refusal (upstream_status r)) |} ] |}).
Proof.
  unfold try_catch, bind, response_text, console_error, ret. simpl.
  rewrite NextResponse_json_run.
  destruct (accepts_status (upstream_status r)); reflexivity.
Qed.

(** [GET], path by path. *)
Lemma GET_run (env : Env) (up : Upstream) (w : World) :
  GET env up w
  = if negb (JS.truthy_opt (NOTION_TOKEN env))
    then (Value (json_status (failure token_missing) 500), w)
    else
      let w1 := {| upstream_calls := upstream_calls w ++ [sent env None];
                   console := console w |} in
      match up with
      | FetchRejects => on_error NetworkError w1
      | Responds r =>
          if negb (ok r) then
            try_catch
              (errorData <- response_text r ;;
               console_error "Notion API 오류:" (LogText errorData) ;;;
               NextResponse_json (failure (upstream_failed (upstream_status r)))
                                 (upstream_status r))
              on_error w1
          else
            match upstream_json r with
            | None => on_error SyntaxError w1
            | Some NoResultList => (Value (json_status (failure bad_format) 500), w1)
            | Some (ResultList rs) => (Value (json_ok (succeeded (List.filter keep rs))), w1)
            end
      end.
Proof.
  unfold GET, try_catch, bind, fetch, sent.
  destruct (JS.truthy_opt (NOTION_TOKEN env)); simpl; [|reflexivity].
  destruct up as [|r]; simpl; [reflexivity|].
  destruct (ok r); simpl; [|reflexivity].
  unfold response_json. destruct (upstream_json r) as [[|rs]|]; reflexivity.
Qed.

(** [POST], path by path. *)
Lemma POST_run (request : Request) (env : Env) (up : Upstream) (w : World) :
  POST request env up w
  = match request_json request with
    | None => on_error SyntaxError w
    | Some b =>
        if negb (JS.truthy_opt (NOTION_TOKEN env))
        then (Value (json_status (failure token_missing) 500), w)
        else
          let filters := match filters b with Some f => f | None => [] end in
          let sorts := match sorts b with Some s => s | None => [] end in
          let w1 :=
            {| upstream_calls :=
                 upstream_calls w
                 ++ [sent env (Some {| filter := if (0 <? List.length filters)%nat
                                                 then Some filters else None;
                                       query_sorts := if (0 <? List.length sorts)%nat
                                                      then Some sorts else None |})];
               console := console w |} in
          match up with
          | FetchRejects => on_error NetworkError w1
          | Responds r =>
              if negb (ok r) then
                try_catch
                  (errorData <- response_text r ;;
                   console_error "Notion API 오류:" (LogText errorData) ;;;
                   NextResponse_json (failure (upstream_failed (upstream_status r)))
                                     (upstream_status r))
                  on_error w1
              else
                match upstream_json r with
                | None => on_error SyntaxError w1
                | Some NoResultList => on_error TypeError w1
                | Some (ResultList rs) =>
                    (Value (json_ok (succeeded (List.filter keep rs))), w1)
                end
          end
    end.
Proof.
  unfold POST, try_catch, bind, fetch, read_json, sent.
  destruct (request_json request) as [b|]; simpl; [|reflexivity].
  destruct (JS.truthy_opt (NOTION_TOKEN env)); simpl; [|reflexivity].
  destruct up as [|r]; simpl; [reflexivity|].
  destruct (ok r); simpl; [|reflexivity].
  unfold response_json. destruct (upstream_json r) as [[|rs]|]; reflexivity.
Qed.

Lemma on_error_run (e : Exception) (w : World) :
  on_error e w
  = (Value (json_status (failure server_error) 500),
     {| upstream_calls := upstream_calls w;
        console := console w ++ [ {| label := "Notion 프로젝트 데이터 로드 실패:";
                                     detail := LogException e |} ] |}).
Proof. reflexivity. Qed.

(** The one request [GET] sends. *)
Lemma GET_calls (env : Env) (up : Upstream) (w : World) :
  upstream_calls (snd (GET env up w))
  = upstream_calls w
    ++ (if JS.truthy_opt (NOTION_TOKEN env)
        then [ {| fetch_url := query_url env; fetch_method := "POST";
                  fetch_headers := query_headers env; fetch_body := None;
                  revalidate := 300 |} ]
        else []).
Proof.
  rewrite GET_run.
  destruct (JS.truthy_opt (NOTION_TOKEN env)); simpl; [|now rewrite app_nil_r].
  destruct up as [|r]; simpl; [reflexivity|].
  destruct (ok r); simpl.
  - destruct (upstream_json r) as [[|rs]|]; reflexivity.
  - rewrite not_ok_branch. destruct (accepts_status (upstream_status r)); reflexivity.
Qed.

Lemma shape_500 (up : Upstream) (msg : string) :
  answer_shape up (json_status (failure msg) 500).
Proof.
  right. split; [discriminate|]. split; [now exists msg | now left].
Qed.

Lemma shape_200 (up : Upstream) (rs : list NotionPage) :
  answer_shape up (json_ok (succeeded rs)).
Proof. left. split; [reflexivity | now exists rs]. Qed.

Lemma shape_not_ok (r : UpstreamResponse) (w : World) :
  ok r = false ->
  exists resp,
    fst (try_catch
           (errorData <- response_text r ;;
            console_error "Notion API 오류:" (LogText errorData) ;;;
            NextResponse_json (failure (upstream_failed (upstream_status r)))
                              (upstream_status r))
           on_error w) = Value resp
    /\ answer_shape (Responds r) resp.
Proof.
  intros Hok. rewrite not_ok_branch.
  destruct (accepts_status (upstream_status r)) eqn:Ha.
  - eexists. split; [reflexivity|].
    apply (accepts_status_not_ok r Hok) in Ha. destruct Ha as [Hr Hn].
    right. simpl. split; [lia|]. split; [eexists; reflexivity|].
    right. exists r. auto.
  - eexists. split; [reflexivity | apply shape_500].
Qed.

(** X1.  Both handlers always answer: no exception leaves them, not even
    the one [NextResponse.json] throws when it is handed a status it does not
    accept.  The answer is status 200 with [{success: true, results, total}],
    [total] being the length of [results], or [{success: false, error}] with
    a status that is 500 or is the status of an upstream answer outside
    200-299, and then one of 300-599 other than 304. *)
Theorem handlers_always_answer
        (request : Request) (env : Env) (up : Upstream) (w : World) :
  (exists resp,
     fst (GET env up w) = Value resp
     /\ ((status resp = 200%Z /\ exists rs, body resp = succeeded rs)
         \/ (status resp <> 200%Z
             /\ (exists msg, body resp = failure msg)
             /\ (status resp = 500%Z
                 \/ exists r, up = Responds r /\ ok r = false
                              /\ status resp = upstream_status r
                              /\ (300 <= upstream_status r <= 599)%Z
                              /\ upstream_status r <> 304%Z))))
  /\ (exists resp,
        fst (POST request env up w) = Value resp
        /\ ((status resp = 200%Z /\ exists rs, body resp = succeeded rs)
            \/ (status resp <> 200%Z
                /\ (exists msg, body resp = failure msg)
                /\ (status resp = 500%Z
                    \/ exists r, up = Responds r /\ ok r = false
                                 /\ status resp = upstream_status r
                                 /\ (300 <= upstream_status r <= 599)%Z
                                 /\ upstream_status r <> 304%Z)))).
Proof.
  change ((exists resp, fst (GET env up w) = Value resp /\ answer_shape up resp)
          /\ (exists resp, fst (POST request env up w) = Value resp /\ answer_shape up resp)).
  split.
  - rewrite GET_run.
    destruct (JS.truthy_opt (NOTION_TOKEN env)); simpl;
      [|eexists; split; [reflexivity | apply shape_500]].
    destruct up as [|r]; simpl; [eexists; split; [reflexivity | apply shape_500]|].
    destruct (ok r) eqn:Hok; simpl; [|now apply shape_not_ok].
    destruct (upstream_json r) as [[|rs]|]; simpl; eexists; (split; [reflexivity|]);
      try apply shape_500. apply shape_200.
  - rewrite POST_run.
    destruct (request_json request) as [b|]; simpl;
      [|eexists; split; [reflexivity | apply shape_500]].
    destruct (JS.truthy_opt (NOTION_TOKEN env)); simpl;
      [|eexists; split; [reflexivity | apply shape_500]].
    destruct up as [|r]; simpl; [eexists; split; [reflexivity | apply shape_500]|].
    destruct (ok r) eqn:Hok; simpl; [|now apply shape_not_ok].
    destruct (upstream_json r) as [[|rs]|]; simpl; eexists; (split; [reflexivity|]);
      try apply shape_500. apply shape_200.
Qed.

(** X2.  When the credential is set and the upstream answers with a status
    outside 200-299, what [GET], and [POST] with a body of the declared
    shape, answer depends on whether [NextResponse.json] accepts that status.
    A status in 300-599 other than 304 is passed on, with
    [{success: false, error}] where the error text ends in the status, and
    the upstream's body text is the one console entry.  For 304, or a status
    below 200 or above 599, [NextResponse.json] throws, and the answer comes
    from the [catch] block: status 500, the generic error text, and a second
    console entry. *)
Theorem upstream_failure_is_passed_on
        (b : PostRequestBody) (env : Env) (r : UpstreamResponse) (w : World) :
  JS.truthy_opt (NOTION_TOKEN env) = true ->
  ((300 <= upstream_status r <= 599)%Z -> upstream_status r <> 304%Z ->
   (fst (GET env (Responds r) w)
    = Value {| status := upstream_status r;
               body := failure (String.append "Notion API 호출 실패: "
                                              (JS.show_number (upstream_status r))) |}
    /\ console (snd (GET env (Responds r) w))
       = console w ++ [ {| label := "Notion API 오류:"; detail := LogText (upstream_text r) |} ])
   /\ (fst (POST {| request_json := Some b |} env (Responds r) w)
       = Value {| status := upstream_status r;
                  body := failure (String.append "Notion API 호출 실패: "
                                                 (JS.show_number (upstream_status r))) |}
       /\ console (snd (POST {| request_json := Some b |} env (Responds r) w))
          = console w ++ [ {| label := "Notion API 오류:";
                              detail := LogText (upstream_text r) |} ]))
  /\ ((upstream_status r = 304 \/ upstream_status r < 200 \/ 599 < upstream_status r)%Z ->
      exists thrown,
        (fst (GET env (Responds r) w)
         = Value {| status := 500; body := failure "서버 오류가 발생했습니다" |}
         /\ console (snd (GET env (Responds r) w))
            = console w
              ++ [ {| label := "Notion API 오류:"; detail := LogText (upstream_text r) |};
                   {| label := "Notion 프로젝트 데이터 로드 실패:";
                      detail := LogException thrown |} ])
        /\ (fst (POST {| request_json := Some b |} env (Responds r) w)
            = Value {| status := 500; body := failure "서버 오류가 발생했습니다" |}
            /\ console (snd (POST {| request_json := Some b |} env (Responds r) w))
               = console w
                 ++ [ {| label := "Notion API 오류:"; detail := LogText (upstream_text r) |};
                      {| label := "Notion 프로젝트 데이터 로드 실패:";
                         detail := LogException thrown |} ])).
Proof.
  intros Ht. rewrite GET_run, POST_run. simpl. rewrite Ht. simpl. split.
  - intros Hr Hn.
    assert (Hok : ok r = false).
    { unfold ok. apply andb_false_iff. right. apply Z.leb_gt. lia. }
    assert (Ha : accepts_status (upstream_status r) = true)
      by (apply (accepts_status_not_ok r Hok); auto).
    rewrite Hok. simpl. rewrite !not_ok_branch, Ha. simpl. auto.
  - intros Hs.
    assert (Hok : ok r = false).
    { unfold ok. apply andb_false_iff.
      destruct Hs as [E|[L|G]]; [rewrite E; now right | left | right]; apply Z.leb_gt; lia. }
    assert (Ha : accepts_status (upstream_status r) = false).
    { destruct (accepts_status (upstream_status r)) eqn:Ha; [|reflexivity].
      apply (accepts_status_not_ok r Hok) in Ha. lia. }
    rewrite Hok. simpl. rewrite !not_ok_branch, Ha. simpl.
    exists (refusal (upstream_status r)). rewrite <- !app_assoc. simpl. auto.
Qed.

Lemma upstream_failure_is_passed_on_witness :
  ((fst (GET configured (Responds rate_limited) quiet)
    = Value {| status := 429; body := failure "Notion API 호출 실패: 429" |}
    /\ console (snd (GET configured (Responds rate_limited) quiet))
       = [ {| label := "Notion API 오류:"; detail := LogText "rate limited" |} ])
   /\ (fst (POST empty_object configured (Responds rate_limited) quiet)
       = Value {| status := 429; body := failure "Notion API 호출 실패: 429" |}
       /\ console (snd (POST empty_object configured (Responds rate_limited) quiet))
          = [ {| label := "Notion API 오류:"; detail := LogText "rate limited" |} ]))
  /\ (exists thrown,
        (fst (GET configured (Responds not_modified) quiet)
         = Value {| status := 500; body := failure "서버 오류가 발생했습니다" |}
         /\ console (snd (GET configured (Responds not_modified) quiet))
            = [ {| label := "Notion API 오류:"; detail := LogText "" |};
                {| label := "Notion 프로젝트 데이터 로드 실패:";
                   detail := LogException thrown |} ])
        /\ (fst (POST empty_object configured (Responds not_modified) quiet)
            = Value {| status := 500; body := failure "서버 오류가 발생했습니다" |}
            /\ console (snd (POST empty_object configured (Responds not_modified) quiet))
               = [ {| label := "Notion API 오류:"; detail := LogText "" |};
                   {| label := "Notion 프로젝트 데이터 로드 실패:";
                      detail := LogException thrown |} ])).
Proof.
  split.
  - apply (upstream_failure_is_passed_on
             {| filters := None; sorts := None |} configured rate_limited quiet eq_refl);
      simpl; [lia | discriminate].
  - apply (upstream_failure_is_passed_on
             {| filters := None; sorts := None |} configured not_modified quiet eq_refl).
    left. reflexivity.
Defined.

(** X3.  [GET] answers with success only on the one path: the credential is
    set, the upstream answered with a status in 200-299 and its JSON has a
    result list.  The returned records are then the kept ones, every one of
    them passes the filter, there are at most as many as the upstream sent,
    and sending the returned list through [GET] again returns it unchanged. *)
Theorem GET_success_only_when_accepted
        (env : Env) (up : Upstream) (w : World) (resp : HttpResponse) :
  fst (GET env up w) = Value resp ->
  success (body resp) = true ->
  JS.truthy_opt (NOTION_TOKEN env) = true
  /\ exists r rs,
       up = Responds r /\ ok r = true /\ upstream_json r = Some (ResultList rs)
       /\ resp = json_ok (succeeded (List.filter keep rs))
       /\ (forall page, In page (List.filter keep rs) -> keep page = true)
       /\ (List.length (List.filter keep rs) <= List.length rs)%nat
       /\ fst (GET env (Responds {| upstream_status := upstream_status r;
                                    upstream_text := upstream_text r;
                                    upstream_json := Some (ResultList (List.filter keep rs)) |}) w)
          = Value resp.
Proof.
  rewrite GET_run.
  destruct (JS.truthy_opt (NOTION_TOKEN env)) eqn:Ht; simpl;
    [|intros E; injection E as <-; discriminate].
  destruct up as [|r]; simpl; [intros E; injection E as <-; discriminate|].
  destruct (ok r) eqn:Hok; simpl.
  2:{ rewrite not_ok_branch. destruct (accepts_status (upstream_status r)); simpl;
        intros E; injection E as <-; discriminate. }
  destruct (upstream_json r) as [[|rs]|] eqn:Hj; simpl;
    intros E; injection E as <-; try discriminate.
  intros _. split; [reflexivity|]. exists r, rs.
  split; [reflexivity|]. split; [exact Hok|]. split; [exact Hj|].
  split; [reflexivity|]. split; [|split].
  - intros page Hin. now apply filter_In in Hin.
  - apply filter_length_le.
  - rewrite GET_run, Ht. simpl. unfold ok in *. simpl. rewrite Hok. simpl.
    assert (Hidem : List.filter keep (List.filter keep rs) = List.filter keep rs).
    { clear. induction rs as [|page rs IH]; simpl; [reflexivity|].
      destruct (keep page) eqn:Hk; simpl; [rewrite Hk, IH|]; auto. }
    now rewrite Hidem.
Qed.

Lemma GET_success_only_when_accepted_witness :
  JS.truthy_opt (NOTION_TOKEN configured) = true
  /\ exists r rs,
       Responds (listing [p1; no_cover; unnamed; p3]) = Responds r
       /\ ok r = true /\ upstream_json r = Some (ResultList rs)
       /\ json_ok (succeeded [p1; p3]) = json_ok (succeeded (List.filter keep rs))
       /\ (forall page, In page (List.filter keep rs) -> keep page = true)
       /\ (List.length (List.filter keep rs) <= List.length rs)%nat
       /\ fst (GET configured
                   (Responds {| upstream_status := upstream_status r;
                                upstream_text := upstream_text r;
                                upstream_json := Some (ResultList (List.filter keep rs)) |})
                   quiet)
          = Value (json_ok (succeeded [p1; p3])).
Proof.
  apply (GET_success_only_when_accepted configured
           (Responds (listing [p1; no_cover; unnamed; p3])) quiet
           (json_ok (succeeded [p1; p3]))); reflexivity.
Defined.

(** X4.  [GET] calls the upstream at most once: exactly once when the
    credential is set, with method POST, no body, the bearer token and the
    Notion version in the headers and a revalidation time of 300 seconds.
    The URL holds [NOTION_DATABASE_ID], or the built-in identifier when that
    variable is not set or is the empty string. *)
Theorem GET_calls_upstream_once (env : Env) (up : Upstream) (w : World) (token : string) :
  NOTION_TOKEN env = Some token ->
  token <> "" ->
  exists target,
    upstream_calls (snd (GET env up w))
    = upstream_calls w
      ++ [ {| fetch_url := String.append "https://api.notion.com/v1/databases/"
                                         (String.append target "/query");
              fetch_method := "POST";
              fetch_headers := [ ("Authorization", String.append "Bearer " token);
                                 ("Content-Type", "application/json");
                                 ("Notion-Version", "2022-06-28") ];
              fetch_body := None;
              revalidate := 300 |} ]
    /\ (NOTION_DATABASE_ID env = None \/ NOTION_DATABASE_ID env = Some "" ->
        target = "26a7cb44e75d8045a568f9f8741bec2d")
    /\ (forall d, NOTION_DATABASE_ID env = Some d -> d <> "" -> target = d).
Proof.
  intros Ht Hne. exists (databaseId env). split; [|split].
  - rewrite GET_calls. rewrite Ht. simpl.
    apply JSFacts.truthy_true in Hne. rewrite Hne.
    unfold query_url, query_headers. rewrite Ht. reflexivity.
  - intros Hd. unfold databaseId.
    apply JSFacts.or_undefined_none in Hd. now rewrite Hd.
  - intros d Hd Hdne. unfold databaseId.
    assert (E : JS.or_undefined (NOTION_DATABASE_ID env) = Some d)
      by (apply JSFacts.or_undefined_some; auto).
    now rewrite E.
Qed.

Lemma GET_calls_upstream_once_witness :
  exists target,
    upstream_calls (snd (GET configured (Responds (listing [p1])) quiet))
    = upstream_calls quiet
      ++ [ {| fetch_url := String.append "https://api.notion.com/v1/databases/"
                                         (String.append target "/query");
              fetch_method := "POST";
              fetch_headers := [ ("Authorization", String.append "Bearer " "secret_token");
                                 ("Content-Type", "application/json");
                                 ("Notion-Version", "2022-06-28") ];
              fetch_body := None;
              revalidate := 300 |} ]
    /\ (NOTION_DATABASE_ID configured = None \/ NOTION_DATABASE_ID configured = Some "" ->
        target = "26a7cb44e75d8045a568f9f8741bec2d")
    /\ (forall d, NOTION_DATABASE_ID configured = Some d -> d <> "" -> target = d).
Proof.
  apply (GET_calls_upstream_once configured (Responds (listing [p1])) quiet "secret_token");
    [reflexivity | discriminate].
Defined.

(** X5.  Whatever filters and sorts a [POST] body of the declared shape
    carries (an object or nothing for [filters], an array or nothing for
    [sorts]), the handler treats the upstream's answer as [GET] does: same
    response and same console entries, unless the upstream answered with a
    success status and a JSON that has no result list. *)
Theorem POST_answers_as_GET (b : PostRequestBody) (env : Env) (up : Upstream) (w : World) :
  (forall r, up = Responds r -> ok r = true -> upstream_json r <> Some NoResultList) ->
  fst (POST {| request_json := Some b |} env up w) = fst (GET env up w)
  /\ console (snd (POST {| request_json := Some b |} env up w))
     = console (snd (GET env up w)).
Proof.
  intros Hup. rewrite POST_run, GET_run. simpl.
  destruct (JS.truthy_opt (NOTION_TOKEN env)); simpl; [|auto].
  destruct up as [|r]; simpl; [auto|].
  specialize (Hup r eq_refl).
  destruct (ok r); simpl.
  2:{ rewrite !not_ok_branch. destruct (accepts_status (upstream_status r)); simpl; auto. }
  destruct (upstream_json r) as [[|rs]|]; simpl; auto.
  now elim Hup.
Qed.

Lemma POST_answers_as_GET_witness :
  fst (POST {| request_json :=
                 Some {| filters := Some [("property", "Category")];
                         sorts := Some [ {| property := "Name"; direction := ascending |} ] |} |}
            configured (Responds (listing [p1; no_cover])) quiet)
  = fst (GET configured (Responds (listing [p1; no_cover])) quiet)
  /\ console (snd (POST {| request_json :=
                             Some {| filters := Some [("property", "Category")];
                                     sorts := Some [ {| property := "Name";
                                                        direction := ascending |} ] |} |}
                        configured (Responds (listing [p1; no_cover])) quiet))
     = console (snd (GET configured (Responds (listing [p1; no_cover])) quiet)).
Proof.
  apply (POST_answers_as_GET
           {| filters := Some [("property", "Category")];
              sorts := Some [ {| property := "Name"; direction := ascending |} ] |}
           configured (Responds (listing [p1; no_cover])) quiet).
  intros r E _. injection E as <-. discriminate.
Defined.

(** X6.  [POST] reads its body before anything else.  With a body of the
    declared shape (an object or nothing for [filters], an array or nothing
    for [sorts]) it calls the upstream exactly once when the credential is
    set and not at all when it is not.  A body that is not JSON (or is
    empty) is answered from the [catch] block whatever the environment and
    the upstream are: no upstream call, status 500, the generic error text
    and one console entry, even when the credential is set. *)
Theorem POST_reaches_upstream_only_with_json_body
        (request : Request) (env : Env) (up : Upstream) (w : World) :
  List.length (upstream_calls (snd (POST request env up w)))
  = (List.length (upstream_calls w)
     + match request_json request with
       | Some _ => if JS.truthy_opt (NOTION_TOKEN env) then 1 else 0
       | None => 0
       end)%nat
  /\ (request_json request = None ->
      POST request env up w
      = (Value {| status := 500; body := failure "서버 오류가 발생했습니다" |},
         {| upstream_calls := upstream_calls w;
            console := console w ++ [ {| label := "Notion 프로젝트 데이터 로드 실패:";
                                         detail := LogException SyntaxError |} ] |})).
Proof.
  split.
  - rewrite POST_run.
    destruct (request_json request) as [b|]; simpl; [|lia].
    destruct (JS.truthy_opt (NOTION_TOKEN env)); simpl; [|lia].
    destruct up as [|r]; simpl; [rewrite length_app; simpl; lia|].
    destruct (ok r); simpl.
    + destruct (upstream_json r) as [[|rs]|]; simpl; rewrite length_app; simpl; lia.
    + rewrite not_ok_branch. destruct (accepts_status (upstream_status r)); simpl;
        rewrite length_app; simpl; lia.
  - intros Hn. rewrite POST_run, Hn. reflexivity.
Qed.

(** X7.  The one request [POST] sends carries [filter] only when the body's
    [filters] has at least one key and [sorts] only when the body's [sorts]
    has at least one entry; so a body with an empty [filters] object and an
    empty [sorts] array is handled exactly as the body [{}], and apart from
    the body the request is the one [GET] sends. *)
Theorem POST_forwards_nonempty_filters_and_sorts
        (b : PostRequestBody) (env : Env) (up : Upstream) (w : World) :
  JS.truthy_opt (NOTION_TOKEN env) = true ->
  exists sent,
    upstream_calls (snd (POST {| request_json := Some b |} env up w))
    = upstream_calls w
      ++ [ {| fetch_url := query_url env; fetch_method := "POST";
              fetch_headers := query_headers env; fetch_body := Some sent;
              revalidate := 300 |} ]
    /\ upstream_calls (snd (GET env up w))
       = upstream_calls w
         ++ [ {| fetch_url := query_url env; fetch_method := "POST";
                 fetch_headers := query_headers env; fetch_body := None;
                 revalidate := 300 |} ]
    /\ (forall f, filter sent = Some f <-> filters b = Some f /\ f <> [])
    /\ (forall s, query_sorts sent = Some s <-> sorts b = Some s /\ s <> [])
    /\ ((filters b = None \/ filters b = Some []) ->
        (sorts b = None \/ sorts b = Some []) ->
        POST {| request_json := Some b |} env up w = POST empty_object env up w).
Proof.
  intros Ht.
  exists {| filter := if (0 <? List.length (match filters b with Some f => f | None => [] end))%nat
                      then Some (match filters b with Some f => f | None => [] end) else None;
            query_sorts := if (0 <? List.length (match sorts b with Some f => f | None => [] end))%nat
                           then Some (match sorts b with Some f => f | None => [] end) else None |}.
  split; [|split; [|split; [|split]]].
  - rewrite POST_run. simpl. rewrite Ht. simpl.
    destruct up as [|r]; simpl; [reflexivity|].
    destruct (ok r); simpl.
    + destruct (upstream_json r) as [[|rs]|]; reflexivity.
    + rewrite not_ok_branch. destruct (accepts_status (upstream_status r)); reflexivity.
  - rewrite GET_calls, Ht. reflexivity.
  - intros f. simpl. destruct (filters b) as [[|x xs]|]; simpl; split;
      try discriminate; try (intros [H _]; discriminate H).
    + intros [H N]. injection H as <-. now elim N.
    + intros H. injection H as <-. split; [reflexivity | discriminate].
    + intros [H _]. exact H.
  - intros f. simpl. destruct (sorts b) as [[|x xs]|]; simpl; split;
      try discriminate; try (intros [H _]; discriminate H).
    + intros [H N]. injection H as <-. now elim N.
    + intros H. injection H as <-. split; [reflexivity | discriminate].
    + intros [H _]. exact H.
  - intros Hf Hs. unfold POST, empty_object, try_catch, bind, read_json. simpl.
    destruct Hf as [-> | ->], Hs as [-> | ->]; reflexivity.
Qed.

Lemma POST_forwards_nonempty_filters_and_sorts_witness :
  exists sent,
    upstream_calls
      (snd (POST {| request_json := Some {| filters := Some []; sorts := None |} |}
                 configured FetchRejects quiet))
    = upstream_calls quiet
      ++ [ {| fetch_url := query_url configured; fetch_method := "POST";
              fetch_headers := query_headers configured; fetch_body := Some sent;
              revalidate := 300 |} ]
    /\ upstream_calls (snd (GET configured FetchRejects quiet))
       = upstream_calls quiet
         ++ [ {| fetch_url := query_url configured; fetch_method := "POST";
                 fetch_headers := query_headers configured; fetch_body := None;
                 revalidate := 300 |} ]
    /\ (forall f, filter sent = Some f <-> Some [] = Some f /\ f <> [])
    /\ (forall s, query_sorts sent = Some s <-> @None (list NotionSort) = Some s /\ s <> [])
    /\ ((Some [] = @None Filters \/ Some [] = @Some Filters []) ->
        (@None (list NotionSort) = None \/ @None (list NotionSort) = Some []) ->
        POST {| request_json := Some {| filters := Some []; sorts := None |} |}
             configured FetchRejects quiet
        = POST empty_object configured FetchRejects quiet).
Proof.
  apply (POST_forwards_nonempty_filters_and_sorts
           {| filters := Some []; sorts := None |} configured FetchRejects quiet).
  reflexivity.
Defined.


End RouteCases.

(** ** The transform, beyond the claims *)

Module TransformMore.

Import Notion Slider Spec Grouping Samples.

Lemma valid_projects_nil (results : list NotionPage) :
  valid_projects results = []
  <-> forall page, In page results -> missing_required page = true.
Proof.
  induction results as [|page results IH]; simpl.
  - split; [intros _ p [] | reflexivity].
  - destruct (project_of page) as [p|] eqn:Hp; simpl.
    + split; [discriminate|]. intros H.
      assert (Hm : missing_required page = true) by (apply H; now left).
      apply Transform.project_of_none in Hm. congruence.
    + rewrite IH. apply Transform.project_of_none in Hp. split.
      * intros H q [<-|Hq]; auto.
      * intros H q Hq. apply H. now right.
Qed.

(** X9.  The transform returns no group at all exactly when every record of
    the input lacks a cover file, a category selection or a skills entry; in
    particular on the empty input. *)
Theorem transform_empty_iff_no_valid_record (results : list NotionPage) :
  transformNotionData results = []
  <-> forall page, In page results -> missing_required page = true.
Proof.
  rewrite <- valid_projects_nil, transform_grouped. split.
  - intros H. destruct (valid_projects results) as [|p ps]; [reflexivity|].
    simpl in H. discriminate H.
  - intros ->. reflexivity.
Qed.

(** Splitting a list by the names of a duplicate-free list that covers its
    categories only rearranges it. *)
Lemma partition_by_category (ks : list string) (ps : list Project) :
  NoDup ks ->
  (forall p, In p ps -> In (category p) ks) ->
  Permutation (flat_map (fun c => List.filter (in_category c) ps) ks) ps.
Proof.
  intros Hnd. induction ps as [|p ps IH]; intros Hcov.
  - replace (flat_map (fun c => List.filter (in_category c) []) ks) with (@nil Project);
      [constructor|].
    clear. induction ks as [|k ks IHk]; simpl; auto.
  - assert (Hin : In (category p) ks) by (apply Hcov; now left).
    assert (IH' : Permutation (flat_map (fun c => List.filter (in_category c) ps) ks) ps).
    { apply IH. intros q Hq. apply Hcov. now right. }
    apply Permutation_trans
      with (p :: flat_map (fun c => List.filter (in_category c) ps) ks);
      [|now constructor].
    clear IH IH' Hcov. revert Hnd Hin.
    induction ks as [|k ks IHk]; intros Hnd Hin; [destruct Hin|].
    inversion Hnd as [|? ? Hnk Hnd']; subst. cbn [flat_map].
    destruct (String.eqb_spec (category p) k) as [E|N].
    + assert (Hk : List.filter (in_category k) (p :: ps)
                   = p :: List.filter (in_category k) ps).
      { cbn [List.filter]. unfold in_category at 1.
        apply String.eqb_eq in E. now rewrite E. }
      assert (Hrest : flat_map (fun c => List.filter (in_category c) (p :: ps)) ks
                      = flat_map (fun c => List.filter (in_category c) ps) ks).
      { clear - Hnk E. induction ks as [|c ks IHc]; [reflexivity|].
        cbn [flat_map]. rewrite IHc by (intros H; apply Hnk; now right).
        f_equal. cbn [List.filter]. unfold in_category at 1.
        destruct (String.eqb_spec (category p) c) as [E'|_]; [|reflexivity].
        elim Hnk. left. congruence. }
      rewrite Hk, Hrest. reflexivity.
    + assert (Hk : List.filter (in_category k) (p :: ps) = List.filter (in_category k) ps).
      { cbn [List.filter]. unfold in_category at 1.
        apply String.eqb_neq in N. now rewrite N. }
      rewrite Hk.
      destruct Hin as [E|Hin]; [now elim N|].
      apply Permutation_trans
        with (List.filter (in_category k) ps
              ++ p :: flat_map (fun c => List.filter (in_category c) ps) ks).
      * apply Permutation_app_head. now apply IHk.
      * apply Permutation_sym, Permutation_middle.
Qed.

Lemma cards_are_valid_projects (results : list NotionPage) :
  Permutation (flat_map projects (transformNotionData results)) (valid_projects results).
Proof.
  rewrite transform_grouped, flat_map_concat_map, map_map. simpl.
  rewrite <- flat_map_concat_map.
  apply partition_by_category; [apply first_seen_NoDup|].
  intros p Hp. apply first_seen_In. now apply in_map.
Qed.

(** X10.  The groups partition the valid records: no group is empty, and
    the cards of all groups together are the projects of the valid records,
    each exactly once, so no valid record is lost or shown twice. *)
Theorem groups_partition_valid_projects (results : list NotionPage) :
  (forall g, In g (transformNotionData results) -> projects g <> [])
  /\ Permutation (flat_map projects (transformNotionData results))
                 (valid_projects results)
  /\ List.length (flat_map projects (transformNotionData results))
     = List.length (valid_projects results).
Proof.
  split; [|split; [apply cards_are_valid_projects
                  | apply Permutation_length, cards_are_valid_projects]].
  intros g Hg E. apply Transform.transform_In in Hg. destruct Hg as [Hc Hp].
  apply in_map_iff in Hc. destruct Hc as [p [Hcat Hin]].
  assert (Hf : In p (List.filter (in_category (category_name g)) (valid_projects results))).
  { apply filter_In. split; [exact Hin|]. unfold in_category. now apply String.eqb_eq. }
  rewrite <- Hp, E in Hf. destruct Hf.
Qed.

(** X11.  Records that fail the guard have no influence: the transform of a
    list is the transform of its valid records alone, and the [archived]
    flag of a record is never looked at. *)
Theorem transform_ignores_invalid_and_archived (results : list NotionPage) :
  transformNotionData results
  = transformNotionData (List.filter (fun page => negb (missing_required page)) results)
  /\ transformNotionData results
     = transformNotionData
         (map (fun page => {| id := id page; archived := negb (archived page);
                              properties := properties page |}) results).
Proof.
  rewrite !transform_grouped.
  assert (H1 : valid_projects (List.filter (fun page => negb (missing_required page)) results)
               = valid_projects results).
  { induction results as [|page results IH]; simpl; [reflexivity|].
    destruct (missing_required page) eqn:Hm; simpl.
    - apply Transform.project_of_none in Hm. now rewrite Hm.
    - now rewrite IH. }
  assert (H2 : valid_projects
                 (map (fun page => {| id := id page; archived := negb (archived page);
                                      properties := properties page |}) results)
               = valid_projects results).
  { clear H1. induction results as [|page results IH]; [reflexivity|].
    cbn [map]. unfold valid_projects in *. cbn [flat_map]. rewrite IH. reflexivity. }
  now rewrite H1, H2.
Qed.

(** X12.  What the route returns, the component shows: every record that
    passes the route's filter passes the component's guard, so the
    transform of the route's results has one card per returned record, with
    that record's id, and the number of cards is the route's [total]. *)
Theorem every_returned_record_becomes_a_card (rs : list NotionPage) :
  Permutation
    (map project_id (flat_map projects (transformNotionData (List.filter Route.keep rs))))
    (map id (List.filter Route.keep rs))
  /\ Some (List.length (flat_map projects (transformNotionData (List.filter Route.keep rs))))
     = Route.total (Route.succeeded (List.filter Route.keep rs)).
Proof.
  assert (Hids : map project_id (valid_projects (List.filter Route.keep rs))
                 = map id (List.filter Route.keep rs)).
  { induction rs as [|page rs IH]; simpl; [reflexivity|].
    destruct (Route.keep page) eqn:Hk; [|exact IH]. simpl.
    destruct (project_of page) as [p|] eqn:Hp.
    - simpl. rewrite IH. f_equal.
      destruct (Transform.project_of_some page p Hp) as [_ [f [rest [sel [_ [_ ->]]]]]].
      reflexivity.
    - apply Transform.project_of_none, Transform.missing_required_iff in Hp.
      apply RouteFacts.keep_iff in Hk.
      destruct Hk as [_ [Hc [[sel [Hs _]] Hsk]]].
      destruct Hp as [Hp|[Hp|Hp]]; congruence. }
  pose proof (cards_are_valid_projects (List.filter Route.keep rs)) as Hperm.
  split.
  - rewrite <- Hids. now apply Permutation_map.
  - simpl. rewrite (Permutation_length Hperm). f_equal.
    rewrite <- (length_map project_id), Hids. apply length_map.
Qed.

(** X13.  No project of the transform's output has the empty string as its
    link: a project has a link exactly when its card is an anchor to it. *)
Theorem project_link_is_never_empty
        (results : list NotionPage) (g : ProjectCategory) (p : Project) :
  In g (transformNotionData results) ->
  In p (projects g) ->
  link p <> Some ""
  /\ forall href, link p = Some href <-> Component.wrapper p = Component.Anchor href.
Proof.
  intros Hg Hp.
  apply Transform.transform_In in Hg. destruct Hg as [_ Hg].
  rewrite Hg in Hp. apply filter_In in Hp. destruct Hp as [Hv _].
  apply Transform.valid_projects_In in Hv. destruct Hv as [page [_ Hof]].
  destruct (Transform.project_of_some page p Hof) as [_ [f' [rest' [sel [_ [_ E]]]]]].
  assert (Hl : link p = JS.or_undefined (Link (properties page))) by (now rewrite E).
  assert (Hne : link p <> Some "").
  { rewrite Hl. intros H. apply JSFacts.or_undefined_some in H. now destruct H. }
  split; [exact Hne|].
  intros href. unfold Component.wrapper. destruct (link p) as [l|]; [|split; discriminate].
  destruct (JS.truthy l) eqn:T.
  - split; intros H; injection H as <-; reflexivity.
  - apply JSFacts.truthy_false in T. subst l. now elim Hne.
Qed.

Lemma project_link_is_never_empty_witness :
  In {| category_name := "Mobile";
        projects := [ {| project_id := "p3"; image := "https://img/3"; link := None;
                         skills := "Swift"; category := "Mobile" |} ] |}
     (transformNotionData [p1; no_cover; p2; p3])
  /\ link {| project_id := "p3"; image := "https://img/3"; link := None;
             skills := "Swift"; category := "Mobile" |} <> Some ""
  /\ forall href,
       link {| project_id := "p3"; image := "https://img/3"; link := None;
               skills := "Swift"; category := "Mobile" |} = Some href
       <-> Component.wrapper {| project_id := "p3"; image := "https://img/3"; link := None;
                                skills := "Swift"; category := "Mobile" |}
           = Component.Anchor href.
Proof.
  assert (Hg : In {| category_name := "Mobile";
                     projects := [ {| project_id := "p3"; image := "https://img/3";
                                      link := None; skills := "Swift";
                                      category := "Mobile" |} ] |}
                  (transformNotionData [p1; no_cover; p2; p3])).
  { rewrite Transform.transform_web_mobile. right. left. reflexivity. }
  split; [exact Hg|].
  apply (project_link_is_never_empty [p1; no_cover; p2; p3] _ _ Hg).
  left. reflexivity.
Defined.

End TransformMore.

(** ** The component as a machine, beyond the claims *)

Module MachineFacts.

Import Notion Slider Component Samples.

(** A click changes the overlay cell and nothing else. *)
Lemma click_keeps_data (n : Node) (s : State) :
  categories (click n s) = categories s /\ loading (click n s) = loading s.
Proof.
  unfold click. destruct (mounted s n); [|auto].
  destruct n as [i j| | | |]; simpl; auto.
  destruct (card_at s i j) as [p|]; simpl; auto.
  destruct (wrapper p); simpl; auto.
Qed.

Lemma handleEsc_keeps_data (key : string) (s : State) :
  categories (handleEsc key s) = categories s /\ loading (handleEsc key s) = loading s.
Proof.
  unfold handleEsc. destruct (key =? "Escape")%string; simpl; auto.
Qed.

Lemma load_settle_selected (r : Fetched) (p : Page) :
  selectedImage (state (load_settle r p)) = selectedImage (state p).
Proof.
  unfold load_settle; destruct r as [|[data|]]; simpl; auto;
    destruct (Route.success data); simpl; auto;
    destruct (Route.results data); simpl; auto.
Qed.

Lemma load_settle_frame (r : Fetched) (p : Page) :
  loading (state (load_settle r p)) = false
  /\ requests (load_settle r p) = requests p
  /\ outstanding (load_settle r p) = pred (outstanding p).
Proof.
  unfold load_settle; destruct r as [|[data|]]; simpl; auto;
    destruct (Route.success data); simpl; auto;
    destruct (Route.results data); simpl; auto.
Qed.

Lemma run_snoc (es : list Event) (e : Event) : run (es ++ [e]) = step (run es) e.
Proof. unfold run. now rewrite fold_left_app. Qed.

(** X14.  Over every sequence of events from the mounted component: when no
    fetch is outstanding the spinner is off; the requests issued are one per
    run of the effect, all to the route of the projects; and no more fetches
    are outstanding than requests were issued. *)
Theorem no_spinner_without_outstanding_fetch (es : list Event) :
  (outstanding (run es) = 0 -> loading (state (run es)) = false)
  /\ requests (run es)
     = repeat "/api/notion/projects"
              (List.length (List.filter (fun e => match e with
                                                  | EffectRuns => true
                                                  | _ => false
                                                  end) es))
  /\ outstanding (run es) <= List.length (requests (run es)).
Proof.
  induction es as [|e es IH] using rev_ind.
  - repeat split; auto.
  - rewrite run_snoc, filter_app, length_app.
    destruct IH as [Hl [Hr Ho]]. destruct e as [|r|n|key]; simpl.
    + split; [discriminate|]. split.
      * rewrite Hr, Nat.add_1_r. simpl. apply eq_sym, repeat_cons.
      * rewrite length_app. simpl. lia.
    + rewrite Nat.add_0_r. destruct (outstanding (run es) =? 0)%nat eqn:Hz.
      * auto.
      * destruct (load_settle_frame r (run es)) as [E1 [E2 E3]].
        rewrite E1, E2, E3. split; [reflexivity|]. split; [exact Hr | lia].
    + rewrite Nat.add_0_r. destruct (click_keeps_data n (state (run es))) as [_ E].
      rewrite E. auto.
    + rewrite Nat.add_0_r. destruct (handleEsc_keeps_data key (state (run es))) as [_ E].
      rewrite E. auto.
Qed.

(** X15.  Clicks and key presses touch nothing but the overlay: they leave
    the categories, the loading flag, the console, the requests and the
    number of outstanding fetches as they are.  A run of the effect and the
    settling of a fetch leave the overlay as it is. *)
Theorem events_keep_to_their_cells (p : Page) :
  (forall n,
     categories (state (step p (Click n))) = categories (state p)
     /\ loading (state (step p (Click n))) = loading (state p)
     /\ console (step p (Click n)) = console p
     /\ requests (step p (Click n)) = requests p
     /\ outstanding (step p (Click n)) = outstanding p)
  /\ (forall key,
        categories (state (step p (KeyDown key))) = categories (state p)
        /\ loading (state (step p (KeyDown key))) = loading (state p)
        /\ console (step p (KeyDown key)) = console p
        /\ requests (step p (KeyDown key)) = requests p
        /\ outstanding (step p (KeyDown key)) = outstanding p)
  /\ selectedImage (state (step p EffectRuns)) = selectedImage (state p)
  /\ (forall r, selectedImage (state (step p (Settles r))) = selectedImage (state p)).
Proof.
  split; [|split; [|split]].
  - intros n. simpl. destruct (click_keeps_data n (state p)) as [-> ->]. auto.
  - intros key. simpl. destruct (handleEsc_keeps_data key (state p)) as [-> ->]. auto.
  - reflexivity.
  - intros r. simpl.
    destruct (outstanding p =? 0)%nat; [reflexivity | apply load_settle_selected].
Qed.

(** X16.  A load that delivers results replaces the category list by the
    transform of those results, whatever the list was before, turns the
    spinner off, writes nothing to the console and issues one request; doing
    the same load again leaves the state as it is. *)
Theorem successful_load_replaces_categories
        (data : Route.Envelope) (rs : list NotionPage) (p : Page) :
  Route.success data = true ->
  Route.results data = Some rs ->
  state (loadProjectsFromNotion (Resolves (Some data)) p)
  = {| categories := transformNotionData rs; loading := false;
       selectedImage := selectedImage (state p) |}
  /\ console (loadProjectsFromNotion (Resolves (Some data)) p) = console p
  /\ requests (loadProjectsFromNotion (Resolves (Some data)) p)
     = requests p ++ ["/api/notion/projects"]
  /\ state (loadProjectsFromNotion (Resolves (Some data))
              (loadProjectsFromNotion (Resolves (Some data)) p))
     = state (loadProjectsFromNotion (Resolves (Some data)) p).
Proof.
  intros Hs Hr. unfold loadProjectsFromNotion, load_settle. simpl.
  rewrite Hs, Hr. simpl. auto.
Qed.

Lemma successful_load_replaces_categories_witness :
  state (loadProjectsFromNotion (Resolves (Some (Route.succeeded [p1; p3]))) mount)
  = {| categories := transformNotionData [p1; p3]; loading := false;
       selectedImage := selectedImage (state mount) |}
  /\ console (loadProjectsFromNotion (Resolves (Some (Route.succeeded [p1; p3]))) mount)
     = console mount
  /\ requests (loadProjectsFromNotion (Resolves (Some (Route.succeeded [p1; p3]))) mount)
     = requests mount ++ ["/api/notion/projects"]
  /\ state (loadProjectsFromNotion (Resolves (Some (Route.succeeded [p1; p3])))
              (loadProjectsFromNotion (Resolves (Some (Route.succeeded [p1; p3]))) mount))
     = state (loadProjectsFromNotion (Resolves (Some (Route.succeeded [p1; p3]))) mount).
Proof.
  apply (successful_load_replaces_categories (Route.succeeded [p1; p3]) [p1; p3] mount);
    reflexivity.
Defined.

(** X17.  The route and the component end to end.  Whatever [GET] answers,
    the component that receives the answer ends with the spinner off.  On
    status 200 its categories are the transform of the returned records
    and nothing is logged; on any other status the categories stay as they
    were and the one console entry carries the route's error text. *)
Theorem route_answer_reaches_the_component
        (env : Route.Env) (up : Route.Upstream) (w : Route.World)
        (answer : Route.HttpResponse) (p : Page) :
  fst (Route.GET env up w) = Route.Value answer ->
  loading (state (loadProjectsFromNotion (served answer) p)) = false
  /\ (Route.status answer = 200%Z ->
      exists rs,
        Route.results (Route.body answer) = Some rs
        /\ categories (state (loadProjectsFromNotion (served answer) p))
           = transformNotionData rs
        /\ console (loadProjectsFromNotion (served answer) p) = console p)
  /\ (Route.status answer <> 200%Z ->
      exists msg,
        Route.error (Route.body answer) = Some msg
        /\ categories (state (loadProjectsFromNotion (served answer) p))
           = categories (state p)
        /\ console (loadProjectsFromNotion (served answer) p)
           = console p ++ [ {| Route.label := "Notion 데이터 로드 실패:";
                               Route.detail := Route.LogText msg |} ]).
Proof.
  assert (Hfail : forall msg st,
             st <> 200%Z ->
             loading (state (loadProjectsFromNotion
                               (served (Route.json_status (Route.failure msg) st)) p)) = false
             /\ (Route.status (Route.json_status (Route.failure msg) st) = 200%Z ->
                 exists rs,
                   Route.results (Route.body (Route.json_status (Route.failure msg) st)) = Some rs
                   /\ categories (state (loadProjectsFromNotion
                                           (served (Route.json_status (Route.failure msg) st)) p))
                      = transformNotionData rs
                   /\ console (loadProjectsFromNotion
                                 (served (Route.json_status (Route.failure msg) st)) p)
                      = console p)
             /\ (Route.status (Route.json_status (Route.failure msg) st) <> 200%Z ->
                 exists m,
                   Route.error (Route.body (Route.json_status (Route.failure msg) st)) = Some m
                   /\ categories (state (loadProjectsFromNotion
                                           (served (Route.json_status (Route.failure msg) st)) p))
                      = categories (state p)
                   /\ console (loadProjectsFromNotion
                                 (served (Route.json_status (Route.failure msg) st)) p)
                      = console p ++ [ {| Route.label := "Notion 데이터 로드 실패:";
                                          Route.detail := Route.LogText m |} ])).
  { intros msg st Hst. split; [reflexivity|]. split.
    - simpl. intros E. now elim Hst.
    - intros _. exists msg. repeat split. }
  rewrite RouteCases.GET_run.
  destruct (JS.truthy_opt (Route.NOTION_TOKEN env)); simpl;
    [|intros E; injection E as <-; apply Hfail; discriminate].
  destruct up as [|r]; simpl; [intros E; injection E as <-; apply Hfail; discriminate|].
  destruct (Route.ok r) eqn:Hok; simpl.
  - destruct (Route.upstream_json r) as [[|rs]|]; simpl; intros E; injection E as <-;
      try (apply Hfail; discriminate).
    split; [reflexivity|]. split.
    + intros _. exists (List.filter Route.keep rs). repeat split.
    + intros H. now elim H.
  - rewrite RouteCases.not_ok_branch.
    destruct (Route.accepts_status (Route.upstream_status r)); simpl;
      intros E; injection E as <-; apply Hfail; [|discriminate].
    intros E. unfold Route.ok in Hok. rewrite E in Hok. discriminate Hok.
Qed.

Lemma route_answer_reaches_the_component_witness :
  loading (state (loadProjectsFromNotion
                    (served (Route.json_status (Route.failure Route.token_missing) 500))
                    mount)) = false
  /\ (Route.status (Route.json_status (Route.failure Route.token_missing) 500) = 200%Z ->
      exists rs,
        Route.results (Route.body (Route.json_status (Route.failure Route.token_missing) 500))
        = Some rs
        /\ categories (state (loadProjectsFromNotion
                                (served (Route.json_status
                                           (Route.failure Route.token_missing) 500)) mount))
           = transformNotionData rs
        /\ console (loadProjectsFromNotion
                      (served (Route.json_status (Route.failure Route.token_missing) 500))
                      mount)
           = console mount)
  /\ (Route.status (Route.json_status (Route.failure Route.token_missing) 500) <> 200%Z ->
      exists msg,
        Route.error (Route.body (Route.json_status (Route.failure Route.token_missing) 500))
        = Some msg
        /\ categories (state (loadProjectsFromNotion
                                (served (Route.json_status
                                           (Route.failure Route.token_missing) 500)) mount))
           = categories (state mount)
        /\ console (loadProjectsFromNotion
                      (served (Route.json_status (Route.failure Route.token_missing) 500))
                      mount)
           = console mount ++ [ {| Route.label := "Notion 데이터 로드 실패:";
                                   Route.detail := Route.LogText msg |} ]).
Proof.
  apply (route_answer_reaches_the_component unconfigured Route.FetchRejects Route.quiet
           (Route.json_status (Route.failure Route.token_missing) 500) mount).
  reflexivity.
Defined.

(** X18.  The overlay is on screen only for an image URL that is not empty:
    a click on a [div] card whose picture URL is the empty string stores it
    but shows no overlay; and while no overlay is shown, clicks on the
    overlay's elements change nothing. *)
Theorem overlay_shown_only_for_nonempty_image (s : State) :
  (forall u, overlay (render s) = Some u <-> selectedImage s = Some u /\ u <> "")
  /\ (forall i j p, card_at s i j = Some p -> wrapper p = Div ->
        selectedImage (click (Card i j) s) = Some (image p)
        /\ overlay (render (click (Card i j) s))
           = if (image p =? "")%string then None else Some (image p))
  /\ (overlay (render s) = None ->
      click Backdrop s = s /\ click ModalContainer s = s
      /\ click CloseButton s = s /\ click ModalImage s = s).
Proof.
  split; [|split].
  - intros u. simpl. apply JSFacts.or_undefined_some.
  - intros i j p Hc Hw. unfold click. simpl. rewrite Hc. simpl. rewrite Hw. simpl.
    split; [reflexivity|]. unfold JS.truthy. now destruct (image p =? "")%string.
  - simpl. intros Ho.
    assert (Hm : JS.truthy_opt (selectedImage s) = false).
    { destruct (selectedImage s) as [u|]; simpl in *; [|reflexivity].
      destruct (JS.truthy u); [discriminate | reflexivity]. }
    unfold click. simpl. rewrite Hm. auto.
Qed.

End MachineFacts.

(** ** The editable settings *)

Module SettingsFacts.

Import Settings.

Lemma last_info_app (l1 l2 : list (string * Stored)) (acc : option ProjectsSliderInfo) :
  last_info (l1 ++ l2) acc = last_info l2 (last_info l1 acc).
Proof.
  revert acc. induction l1 as [|[k [v|v]] l1 IH]; intros acc; simpl; auto.
Qed.

Lemma last_background_app (l1 l2 : list (string * Stored)) (acc : option Background) :
  last_background (l1 ++ l2) acc = last_background l2 (last_background l1 acc).
Proof.
  revert acc. induction l1 as [|[k [v|v]] l1 IH]; intros acc; simpl; auto.
Qed.

Lemma edits_snoc (eds : list Edit) (ed : Edit) (e : Editor) :
  edits (eds ++ [ed]) e = apply_edit (edits eds e) ed.
Proof. unfold edits. now rewrite fold_left_app. Qed.

(** What holds after every sequence of edits made from the initial state. *)
Lemma edits_invariant (eds : list Edit) :
  background (sliderInfo (edits eds initial)) = backgroundData (edits eds initial)
  /\ match last_info (saves (edits eds initial)) None with
     | Some v => v = sliderInfo (edits eds initial)
     | None => sliderInfo (edits eds initial) = defaultInfo
               /\ last_background (saves (edits eds initial)) None = None
     end
  /\ match last_background (saves (edits eds initial)) None with
     | Some b => b = backgroundData (edits eds initial)
     | None => True
     end.
Proof.
  induction eds as [|ed eds IH] using rev_ind.
  - simpl. auto.
  - rewrite edits_snoc. destruct IH as [Hsync [Hinfo Hbg]].
    destruct ed as [key value|data]; simpl;
      rewrite ?last_info_app, ?last_background_app; simpl.
    + split; [now destruct key|]. split; [reflexivity|].
      exact Hbg.
    + auto.
Qed.

(** X19.  From the initial state, after every sequence of title, subtitle
    and background edits, the background inside [sliderInfo] is the
    background in [backgroundData], and the values last saved under the two
    storage keys carry that same background: the two keys stay in step. *)
Theorem saved_backgrounds_stay_in_step (eds : list Edit) :
  background (sliderInfo (edits eds initial)) = backgroundData (edits eds initial)
  /\ (forall v, last_info (saves (edits eds initial)) None = Some v ->
                v = sliderInfo (edits eds initial)
                /\ background v = backgroundData (edits eds initial))
  /\ (forall b, last_background (saves (edits eds initial)) None = Some b ->
                b = backgroundData (edits eds initial)
                /\ exists v, last_info (saves (edits eds initial)) None = Some v
                             /\ background v = b).
Proof.
  destruct (edits_invariant eds) as [Hsync [Hinfo Hbg]].
  split; [exact Hsync|]. split.
  - intros v Hv. rewrite Hv in Hinfo. subst v. auto.
  - intros b Hb. rewrite Hb in Hbg. subst b. split; [reflexivity|].
    destruct (last_info (saves (edits eds initial)) None) as [v|].
    + exists v. subst v. auto.
    + destruct Hinfo as [_ Hnone]. congruence.
Qed.

(** X20.  Saving and loading round-trip.  After any sequence of edits, a
    freshly mounted component whose two [getData] calls return what was last
    saved under the two keys ends with the same [sliderInfo] and the same
    [backgroundData] as the component that made the edits. *)
Theorem load_restores_what_was_saved (eds : list Edit) :
  sliderInfo (load_saved (option_map as_saved (last_info (saves (edits eds initial)) None))
                         (last_background (saves (edits eds initial)) None) initial)
  = sliderInfo (edits eds initial)
  /\ backgroundData (load_saved (option_map as_saved
                                             (last_info (saves (edits eds initial)) None))
                                (last_background (saves (edits eds initial)) None) initial)
     = backgroundData (edits eds initial).
Proof.
  destruct (edits_invariant eds) as [Hsync [Hinfo Hbg]].
  destruct (last_info (saves (edits eds initial)) None) as [v|].
  - subst v. simpl.
    destruct (last_background (saves (edits eds initial)) None) as [b|]; simpl.
    + subst b. split; [|reflexivity].
      now destruct (sliderInfo (edits eds initial)).
    + split; [now destruct (sliderInfo (edits eds initial)) | exact Hsync].
  - destruct Hinfo as [Hdef Hnone]. rewrite Hnone. simpl.
    rewrite <- Hsync, Hdef. auto.
Qed.

(** X21.  What the mount effect does with stored settings.  With nothing
    stored the state is left alone.  With a stored info object every field
    it has is taken and every field it lacks gets the built-in default, not
    the value on screen.  A stored background under its own key wins over the
    one inside the info object.  Loading never saves. *)
Theorem stored_settings_are_merged_over_defaults
        (saved : SavedInfo) (savedBg : option Background) (b : Background) (e : Editor) :
  load_saved None None e = e
  /\ title (sliderInfo (load_saved (Some saved) savedBg e))
     = match saved_title saved with Some t => t | None => "프로젝트" end
  /\ subtitle (sliderInfo (load_saved (Some saved) savedBg e))
     = match saved_subtitle saved with
       | Some t => t
       | None => "카테고리별 프로젝트 포트폴리오"
       end
  /\ background (sliderInfo (load_saved (Some saved) savedBg e))
     = match saved_background saved with
       | Some g => g
       | None => background defaultInfo
       end
  /\ backgroundData (load_saved (Some saved) (Some b) e) = b
  /\ backgroundData (load_saved (Some saved) None e)
     = match saved_background saved with Some g => g | None => backgroundData e end
  /\ saves (load_saved (Some saved) savedBg e) = saves e.
Proof.
  unfold load_saved.
  destruct saved as [t st g]. simpl.
  destruct g as [g|], savedBg as [b'|], t as [t|], st as [st|]; simpl; repeat split.
Qed.

End SettingsFacts.

(** ** The strips and their scroll buttons *)

Module ScrollFacts.

Import Notion Slider Spec Scroll.

Lemma get_set_same (V : Type) (k : string) (v : V) (m : OrderedMap.t V) :
  OrderedMap.get k (OrderedMap.set k v m) = Some v.
Proof.
  induction m as [|[k' v'] m IH]; simpl.
  - now rewrite String.eqb_refl.
  - destruct (k' =? k)%string eqn:E; simpl; rewrite E; auto.
Qed.

Lemma get_set_other (V : Type) (k k' : string) (v : V) (m : OrderedMap.t V) :
  k <> k' -> OrderedMap.get k' (OrderedMap.set k v m) = OrderedMap.get k' m.
Proof.
  intros Hne. induction m as [|[k0 v0] m IH]; simpl.
  - apply String.eqb_neq in Hne. now rewrite Hne.
  - destruct (String.eqb_spec k0 k) as [->|N]; simpl.
    + apply String.eqb_neq in Hne. now rewrite Hne.
    + destruct (k0 =? k')%string; auto.
Qed.

(** Attaching the refs of strips with other names leaves a name's entry. *)
Lemma attach_from_other (cats : list ProjectCategory) (i : nat) (refs : Refs) (k : string) :
  ~ In k (map category_name cats) ->
  OrderedMap.get k (attach_from i cats refs) = OrderedMap.get k refs.
Proof.
  revert i refs. induction cats as [|c cats IH]; intros i refs Hk; simpl; [reflexivity|].
  rewrite IH by (intros H; apply Hk; now right).
  apply get_set_other. intros E. apply Hk. now left.
Qed.

(** With distinct names, each strip's name leads to that strip's element. *)
Lemma attach_from_get (cats : list ProjectCategory) (i j : nat) (refs : Refs)
      (c : ProjectCategory) :
  NoDup (map category_name cats) ->
  nth_error cats j = Some c ->
  OrderedMap.get (category_name c) (attach_from i cats refs) = Some (Some (i + j)).
Proof.
  revert i j refs. induction cats as [|c0 cats IH]; intros i j refs Hnd Hj.
  - destruct j; discriminate Hj.
  - simpl in Hnd. inversion Hnd as [|? ? Hnin Hnd']; subst.
    destruct j as [|j]; simpl in *.
    + injection Hj as ->. rewrite attach_from_other by exact Hnin.
      rewrite get_set_same. now rewrite Nat.add_0_r.
    + rewrite (IH (S i) j _ Hnd' Hj). do 2 f_equal. lia.
Qed.

(** X22.  After the strips of the transform's output are rendered, the
    scroll buttons of strip [i] act on the container of strip [i] and on no
    other: the call is [scrollTo] on that container, smooth, to its current
    offset minus 320 for left and plus 320 for right, whatever refs were
    there before. *)
Theorem scroll_buttons_move_their_own_strip
        (results : list NotionPage) (i : nat) (c : ProjectCategory)
        (refs : Refs) (scrollLeft : nat -> Z) :
  nth_error (transformNotionData results) i = Some c ->
  scrollSlider (attach (transformNotionData results) refs) scrollLeft (category_name c) left
  = Some {| element := i; to_left := (scrollLeft i - 320)%Z; behavior := "smooth" |}
  /\ scrollSlider (attach (transformNotionData results) refs) scrollLeft (category_name c) right
     = Some {| element := i; to_left := (scrollLeft i + 320)%Z; behavior := "smooth" |}.
Proof.
  intros Hi.
  assert (Hnd : NoDup (map category_name (transformNotionData results))).
  { rewrite Grouping.transform_grouped, map_map. simpl. rewrite map_id.
    apply Grouping.first_seen_NoDup. }
  unfold scrollSlider, attach.
  rewrite (attach_from_get _ 0 i refs c Hnd Hi). simpl.
  split; reflexivity.
Qed.

Lemma scroll_buttons_move_their_own_strip_witness :
  nth_error (transformNotionData [Samples.p1; Samples.p2; Samples.p3]) 1
  = Some {| category_name := "Mobile";
            projects := [ {| project_id := "p3"; image := "https://img/3";
                             link := None; skills := "Swift";
                             category := "Mobile" |} ] |}
  /\ scrollSlider (attach (transformNotionData [Samples.p1; Samples.p2; Samples.p3])
                          [("Web", Some 7)])
                  (fun el => match el with 1 => 640%Z | _ => 0%Z end) "Mobile" left
     = Some {| element := 1; to_left := (640 - 320)%Z; behavior := "smooth" |}
  /\ scrollSlider (attach (transformNotionData [Samples.p1; Samples.p2; Samples.p3])
                          [("Web", Some 7)])
                  (fun el => match el with 1 => 640%Z | _ => 0%Z end) "Mobile" right
     = Some {| element := 1; to_left := (640 + 320)%Z; behavior := "smooth" |}.
Proof.
  split; [reflexivity|].
  apply (scroll_buttons_move_their_own_strip
           [Samples.p1; Samples.p2; Samples.p3] 1
           {| category_name := "Mobile";
              projects := [ {| project_id := "p3"; image := "https://img/3";
                               link := None; skills := "Swift";
                               category := "Mobile" |} ] |}
           [("Web", Some 7)] (fun el => match el with 1 => 640%Z | _ => 0%Z end)).
  reflexivity.
Defined.

End ScrollFacts.
